(** * The list layout of DataViews: [packages/dataviews/src/view-list.js]

    A shallow embedding of the [ViewList] component and of the values it
    handles, followed by the properties of its specification.

    The component receives seven props.  Three of them ([fields], [data],
    [selection]) are references to arrays owned by the caller; the model keeps
    their referents in a [Heap], so that what a render pass mutates, and what
    it leaves alone, is visible in the result.  Objects in the [fields] array
    are referred to by their position in it. *)

From Stdlib Require Import ZArith Lia Ascii.
From stdpp Require Import base option list strings gmap.

Open Scope string_scope.
Open Scope list_scope.

(** ** JavaScript values *)

Module JS.

(** The primitive values that occur as item ids, list keys and key codes.
    Numbers are integers here: ids, indices and key codes are. *)
Inductive value :=
| Undefined
| Null
| Bool (b : bool)
| Num (n : Z)
| Str (s : string).

#[global] Instance value_eq_dec : EqDecision value.
Proof. solve_decision. Defined.

(** ToBoolean. *)
Definition truthy (v : value) : bool :=
  match v with
  | Undefined | Null => false
  | Bool b => b
  | Num n => negb (n =? 0)%Z
  | Str s => negb (String.eqb s "")
  end.

(** [a || b] *)
Definition or (a b : value) : value := if truthy a then a else b.

(** [Array.prototype.includes]: a left-to-right scan; on the values above
    SameValueZero is plain equality. *)
Fixpoint includes {A} `{EqDecision A} (l : list A) (x : A) : bool :=
  match l with
  | [] => false
  | y :: l' => if decide (y = x) then true else includes l' x
  end.

Inductive error := TypeError (message : string).

End JS.

(** ** The data model *)

Module Item.
(** An item of the data set: [id] and further named attributes. *)
Record t := mk { id : JS.value; attributes : list (string * JS.value) }.
End Item.

(** What a field's [render] returns: a React node. *)
Inductive Displayable :=
| DEmpty
| DText (s : string)
| DNumber (n : Z)
| DElement (tag className text : string).

Definition displayable_truthy (d : Displayable) : bool :=
  match d with
  | DEmpty => false
  | DText s => negb (String.eqb s "")
  | DNumber n => negb (n =? 0)%Z
  | DElement _ _ _ => true
  end.

Module Format.
Record t := mk { type : string; attributes : list (string * JS.value) }.
End Format.

Module Field.
(** [formats] is an optional property: [None] is [undefined].  [render] is
    taken as a function of the item alone, one that returns: what a render
    reads of its descriptor, and a render that throws, are not modelled. *)
Record t := mk {
  id : string;
  render : Item.t → Displayable;
  formats : option (list Format.t)
}.

(** [field.formats = fs] *)
Definition set_formats (fs : list Format.t) (f : t) : t :=
  {| id := id f; render := render f; formats := Some fs |}.
End Field.

Module Layout.
(** [None] is an id that is not set. *)
Record t := mk { mediaField : option string; primaryField : option string }.
End Layout.

Module View.
Record t := mk { layout : Layout.t; hiddenFields : list string }.
End View.

(** The caller's arrays. *)
Record Heap := mkHeap {
  fields : list Field.t;
  data : list Item.t;
  selection : list JS.value
}.

(** The state a computation runs in: the heap, and the arguments of the
    invocations of [onSelectionChange] so far, oldest first. *)
Record State := mkState {
  heap : Heap;
  trace : list (list Item.t)
}.

(** ** Computations that read and write the state and may throw *)

Inductive outcome (A : Type) :=
| Returned (a : A)
| Threw (e : JS.error).
Arguments Returned {A} a.
Arguments Threw {A} e.

Definition M (A : Type) : Type := State → outcome A * State.

Definition ret {A} (a : A) : M A := λ st, (Returned a, st).

Definition bind {A B} (c : M A) (k : A → M B) : M B :=
  λ st, match c st with
        | (Returned a, st') => k a st'
        | (Threw e, st') => (Threw e, st')
        end.

Definition throw {A} (e : JS.error) : M A := λ st, (Threw e, st).

Definition get_heap : M Heap := λ st, (Returned (heap st), st).

Definition put_fields (fs : list Field.t) : M unit :=
  λ st, (Returned (),
         {| heap := {| fields := fs; data := data (heap st);
                       selection := selection (heap st) |};
            trace := trace st |}).

Declare Scope js_scope.
Delimit Scope js_scope with js.
Notation "'let!' x := c 'in' k" := (bind c (λ x, k))
  (at level 10, x name, c at level 100, k at level 200) : js_scope.
Notation "c ;;; k" := (bind c (λ _, k))
  (at level 100, k at level 200, right associativity) : js_scope.

(** Calling the [onSelectionChange] prop: the caller's code runs on the heap,
    and the call is recorded. *)
Definition invoke (callback : list Item.t → Heap → Heap)
    (selectedItems : list Item.t) : M unit :=
  λ st, (Returned (),
         {| heap := callback selectedItems (heap st);
            trace := trace st ++ [selectedItems] |}).

(** ** The component *)

Module AsyncListConfig.
Record t := mk { step : nat }.
End AsyncListConfig.

Record KeyboardEvent := mkKeyboardEvent { keyCode : Z }.

(** The props that are not arrays. *)
Record Props := mkProps {
  view : View.t;
  getItemId : option (Item.t → JS.value);
  onSelectionChange : list Item.t → Heap → Heap;
  deferredRendering : bool
}.

(** Where the selected class is joined to the base class: [classNames] of the
    [classnames] package, at a string and an object of conditional classes. *)
Definition classNames (base : string) (conditional : list (string * bool))
    : string :=
  foldl (λ acc (c : string * bool), if c.2 then acc +:+ " " +:+ c.1 else acc)
    base conditional.

(** One [<li>] of the list. *)
Record Row := mkRow {
  key : JS.value;
  ariaPressed : bool;
  onKeyDown : KeyboardEvent → M unit;
  className : string;
  onClick : M unit;
  media : Displayable;
  primary : Displayable;
  fieldSpans : list (string * Displayable)
}.

Definition placeholder : Displayable :=
  DElement "div" "dataviews-list-view__media-placeholder" "".

(** ** The reveal scheduler *)

Module AsyncList.

(** Modelled from the spec: the reveal scheduler, [useAsyncList] of
    [@wordpress/compose], whose source is not part of the files at hand.
    Its state is the prefix of the full list revealed so far; a scheduling
    tick replaces it by the prefix that is one batch longer, and the state
    before the first tick is the empty prefix. *)
Definition tick {A} (fullList : list A) (config : AsyncListConfig.t)
    (current : list A) : list A :=
  take (length current + AsyncListConfig.step config) fullList.

Fixpoint reveal {A} (ticks : nat) (fullList : list A)
    (config : AsyncListConfig.t) : list A :=
  match ticks with
  | 0 => []
  | S n => tick fullList config (reveal n fullList config)
  end.

(** The hook's value in a render pass that follows [ticks] ticks. *)
Definition useAsyncList (ticks : nat) (fullList : list Item.t)
    (config : AsyncListConfig.t) : list Item.t :=
  reveal ticks fullList config.

(** The number of ticks after which a list of [n] items is revealed in
    batches of [step]: [n / step], rounded up. *)
Definition final_tick (n step : nat) : nat := (n + step - 1) / step.

End AsyncList.

(** * The post edit form:
    [packages/edit-site/src/components/post-edit/index.js] *)

(** Plain objects, and what a property read gives on something that need not
    be an object. *)
Module Obj.

Abbreviation t := (gmap string JS.value).

(** [o.name]: [undefined] for a property the object does not have. *)
Definition get (o : t) (name : string) : JS.value :=
  default JS.Undefined (o !! name).

(** A value that is an object, or one of the primitive values. *)
Inductive ref :=
| Prim (v : JS.value)
| Object (o : t).

(** [r?.name], for a name that no primitive value has as a property. *)
Definition read_optional (r : ref) (name : string) : JS.value :=
  match r with
  | Object o => get o name
  | Prim _ => JS.Undefined
  end.

(** [r.name], for such a name: it throws on [null] and [undefined]. *)
Definition read (r : ref) (name : string) : outcome JS.value :=
  match r with
  | Object o => Returned (get o name)
  | Prim JS.Null =>
      Threw (JS.TypeError
        ("Cannot read properties of null (reading '" +:+ name +:+ "')"))
  | Prim JS.Undefined =>
      Threw (JS.TypeError
        ("Cannot read properties of undefined (reading '" +:+ name +:+ "')"))
  | Prim _ => Returned JS.Undefined
  end.

End Obj.

Module PostEdit.


(** [s.split( separator )] for a separator of one character. *)
Fixpoint split (separator : Ascii.ascii) (s : string) : list string :=
  match s with
  | EmptyString => [""]
  | String c rest =>
      if Ascii.eqb c separator then "" :: split separator rest
      else
        match split separator rest with
        | piece :: pieces => String c piece :: pieces
        | [] => [String c ""]
        end
  end.

(** The number of occurrences of a character. *)
Fixpoint count (c : Ascii.ascii) (s : string) : nat :=
  match s with
  | EmptyString => 0
  | String c' rest => (if Ascii.eqb c' c then 1 else 0) + count c rest
  end.

Definition fieldsWithBulkEditSupport : list string :=
  ["title"; "status"; "date"; "author"; "comment_status"].

Module Template.
Record t := mk {
  id : JS.value;
  title : option JS.value;   (* [title.rendered], when there is a title *)
  slug : JS.value
}.
End Template.

Module TemplateOption.
Record t := mk { value : JS.value; label : JS.value }.
End TemplateOption.

(** Lines 42-61, on what [getEntityRecords] returned: [None] is [null]. *)
Definition useTemplates (templates : option (list Template.t))
    : list TemplateOption.t :=
  match templates with
  | Some templates =>
      (λ template,
         TemplateOption.mk (Template.id template)
           (JS.or (default JS.Undefined (Template.title template))
              (Template.slug template)))
        <$> templates
  | None => []
  end.

Module Element.
Record t := mk { value : JS.value; label : string }.
End Element.

(** The props an [Edit] component is rendered with. *)
Module EditProps.
Record t := mk {
  props : Obj.t;
  templates : option (list TemplateOption.t)
}.
End EditProps.

Module PostField.
Record t := mk {
  id : string;
  elements : option (list Element.t);
  Edit : EditProps.t → Displayable
}.
End PostField.

(** An entry of the [fields] of the form: the id of a field, or an object. *)
Module FormField.
Record object := mkObject {
  id : string;
  layout : option string;
  label : option string;
  labelPosition : option string;
  children : option (list string)
}.
Inductive t :=
| Id (id : string)
| Object (o : object).
End FormField.

Module Form.
Record t := mk { type : string; fields : list FormField.t }.
End Form.

(** A call of [editEntityRecord]. *)
Record EditCall := mkEditCall {
  kind : string;
  name : string;
  recordId : string;
  calledWith : Obj.t
}.

(** What [onChange] works on: the object it is called with, the state
    [multiEdits], and the calls of [editEntityRecord] so far. *)
Record Effects := mkEffects {
  edits : Obj.t;
  multiEdits : Obj.t;
  dispatched : list EditCall
}.

(** [for ( const id of ids ) body]; a body that throws ends the loop. *)
Fixpoint for_of (ids : list string)
    (body : string → Effects → outcome unit * Effects) (s : Effects)
    : outcome unit * Effects :=
  match ids with
  | [] => (Returned (), s)
  | id :: rest =>
      match body id s with
      | (Returned _, s') => for_of rest body s'
      | (Threw e, s') => (Threw e, s')
      end
  end.

(** [fs.map( f )] for an [f] that may throw. *)
Fixpoint map_throwing {A B} (f : A → outcome B) (l : list A)
    : outcome (list B) :=
  match l with
  | [] => Returned []
  | x :: l' =>
      match f x with
      | Threw e => Threw e
      | Returned y =>
          match map_throwing f l' with
          | Threw e => Threw e
          | Returned ys => Returned (y :: ys)
          end
      end
  end.

(** What the form is rendered as. *)
Record FormView := mkFormView {
  postCardPanel : option (string * string);
  data : Obj.ref;
  viewFields : list PostField.t;
  viewForm : Form.t;
  viewOnChange : Obj.t → Obj.t → list EditCall → outcome unit * Effects
}.

(** What [PostEdit] renders inside the page. *)
Record PageView := mkPageView {
  pageClassName : string;
  pageForm : option (outcome FormView);
  pageMessage : option string
}.

Section PostEdit.

(** What the component takes from elsewhere: the translation function, the
    selectors of the core data store, the fields of the post type, and the
    comparison of a date with the present moment. *)
Variable __ : string → string.
Variable getEditedEntityRecord : string → string → string → Obj.ref.
Variable getEntityRecords : string → string → option (list Template.t).
Variable usePostFields : string → option (list PostField.t).
Variable isAfterNow : JS.value → bool.

Definition ids (postId : string) : list string := split ","%char postId.

(** Lines 66-80. *)
Definition record (postType : string) (ids : list string) : Obj.ref :=
  match ids with
  | [id] => getEditedEntityRecord "postType" postType id
  | _ => Obj.Prim JS.Null
  end.

Definition not_trash (element : Element.t) : Prop :=
  Element.value element ≠ JS.Str "trash".

#[global] Instance not_trash_dec element : Decision (not_trash element).
Proof. unfold not_trash. apply _. Defined.

(** The callback of lines 90-100. *)
Definition withoutTrash (field : PostField.t) : outcome PostField.t :=
  if decide (PostField.id field = "status") then
    match PostField.elements field with
    | Some elements =>
        Returned
          {| PostField.id := PostField.id field;
             PostField.elements := Some (filter not_trash elements);
             PostField.Edit := PostField.Edit field |}
    | None =>
        Threw (JS.TypeError
          "Cannot read properties of undefined (reading 'filter')")
    end
  else Returned field.

(** Lines 88-102: [_fields?.map( ... )]. *)
Definition fields (_fields : option (list PostField.t))
    : outcome (option (list PostField.t)) :=
  match _fields with
  | None => Returned None
  | Some fs =>
      match map_throwing withoutTrash fs with
      | Returned fs' => Returned (Some fs')
      | Threw e => Threw e
      end
  end.

Definition formFields : list FormField.t :=
  [ FormField.Object
      (FormField.mkObject "featured_media" (Some "regular") None None None);
    FormField.Id "title";
    FormField.Object
      (FormField.mkObject "status" None (Some (__ "Status & Visibility"))
         None (Some ["status"; "password"]));
    FormField.Id "author";
    FormField.Id "date";
    FormField.Id "slug";
    FormField.Id "parent";
    FormField.Id "comment_status";
    FormField.Object
      (FormField.mkObject "template" (Some "regular") (Some (__ "Template"))
         (Some "side") None) ].

(** [fieldsWithBulkEditSupport.includes( field )]: an entry that is an object
    is not equal to any string. *)
Definition supportsBulkEdit (field : FormField.t) : bool :=
  match field with
  | FormField.Id id => JS.includes fieldsWithBulkEditSupport id
  | FormField.Object _ => false
  end.

(** Lines 105-137. *)
Definition form (ids : list string) : Form.t :=
  {| Form.type := "panel";
     Form.fields :=
       filter (λ field, length ids = 1 ∨ supportsBulkEdit field = true)
         formFields |}.

(** The body of the loop of lines 141-171. *)
Definition onChange_body (postType : string) (ids : list string)
    (record : Obj.ref) (id : string) (s : Effects)
    : outcome unit * Effects :=
  let status := Obj.get (edits s) "status" in
  let s :=
    if JS.truthy status
       && negb (bool_decide (status = JS.Str "future"))
       && bool_decide (Obj.read_optional record "status" = JS.Str "future")
       && isAfterNow (Obj.read_optional record "date")
    then {| edits := <["date" := JS.Null]> (edits s);
            multiEdits := multiEdits s; dispatched := dispatched s |}
    else s in
  let status := Obj.get (edits s) "status" in
  let cleared :=
    if JS.truthy status && bool_decide (status = JS.Str "private") then
      match Obj.read record "password" with
      | Threw e => Threw e
      | Returned password =>
          Returned
            (if JS.truthy password
             then {| edits := <["password" := JS.Str ""]> (edits s);
                     multiEdits := multiEdits s; dispatched := dispatched s |}
             else s)
      end
    else Returned s in
  match cleared with
  | Threw e => (Threw e, s)
  | Returned s =>
      let s :=
        {| edits := edits s; multiEdits := multiEdits s;
           dispatched :=
             dispatched s ++ [mkEditCall "postType" postType id (edits s)] |} in
      (Returned (),
       if decide (1 < length ids)%nat
       then {| edits := edits s; multiEdits := edits s ∪ multiEdits s;
               dispatched := dispatched s |}
       else s)
  end.

(** Lines 140-172. *)
Definition onChange (postType : string) (ids : list string)
    (record : Obj.ref) (edits multiEdits : Obj.t)
    (dispatched : list EditCall) : outcome unit * Effects :=
  for_of ids (onChange_body postType ids record)
    {| edits := edits; multiEdits := multiEdits; dispatched := dispatched |}.

(** Lines 180-192: [fields.map( ... )] throws on [undefined]. *)
Definition fieldsWithDependency (fields : option (list PostField.t))
    (templates : list TemplateOption.t) : outcome (list PostField.t) :=
  match fields with
  | None =>
      Threw (JS.TypeError
        "Cannot read properties of undefined (reading 'map')")
  | Some fs =>
      Returned
        ((λ field,
            if decide (PostField.id field = "template") then
              {| PostField.id := PostField.id field;
                 PostField.elements := PostField.elements field;
                 PostField.Edit :=
                   λ data,
                     PostField.Edit field
                       {| EditProps.props := EditProps.props data;
                          EditProps.templates := Some templates |} |}
            else field)
           <$> fs)
  end.

(** Lines 63-207, in a render with the state [multiEdits]. *)
Definition PostEditForm (postType postId : string) (multiEdits : Obj.t)
    : outcome FormView :=
  let ids := ids postId in
  let record := record postType ids in
  let _fields := usePostFields postType in
  let templates := useTemplates (getEntityRecords "postType" "wp_template") in
  match fields _fields with
  | Threw e => Threw e
  | Returned fields =>
      let form := form ids in
      match fieldsWithDependency fields templates with
      | Threw e => Threw e
      | Returned fieldsWithDependency =>
          Returned
            {| postCardPanel :=
                 if decide (length ids = 1)
                 then Some (postType, default "" (ids !! 0)) (* [ids[ 0 ]] *)
                 else None;
               data :=
                 if decide (length ids = 1) then record
                 else Obj.Object multiEdits;
               viewFields := fieldsWithDependency;
               viewForm := form;
               viewOnChange := onChange postType ids record |}
      end
  end.

(** Lines 209-223; [None] is a [postId] that is [undefined]. *)
Definition PostEdit (postType : string) (postId : option string)
    (multiEdits : Obj.t) : PageView :=
  let present :=
    match postId with
    | Some id => negb (String.eqb id "")
    | None => false
    end in
  {| pageClassName :=
       classNames "edit-site-post-edit" [("is-empty", negb present)];
     pageForm :=
       match postId with
       | Some id =>
           if present then Some (PostEditForm postType id multiEdits)
           else None
       | None => None
       end;
     pageMessage :=
       if negb present then Some (__ "Select a page to edit") else None |}.

(** The edits as a turn of the loop leaves them when it does not throw:
    the closed form that the loop is compared with. *)
Definition adjusted (record : Obj.ref) (edits : Obj.t) : Obj.t :=
  let status := Obj.get edits "status" in
  let dated :=
    if JS.truthy status
       && negb (bool_decide (status = JS.Str "future"))
       && bool_decide (Obj.read_optional record "status" = JS.Str "future")
       && isAfterNow (Obj.read_optional record "date")
    then <["date" := JS.Null]> edits else edits in
  if bool_decide (status = JS.Str "private")
     && JS.truthy (Obj.read_optional record "password")
  then <["password" := JS.Str ""]> dated else dated.

(** Whether a turn of the loop throws: the status becomes private and the
    record is [null] or [undefined]. *)
Definition throws (record : Obj.ref) (edits : Obj.t) : Prop :=
  Obj.get edits "status" = JS.Str "private" ∧
  (record = Obj.Prim JS.Null ∨ record = Obj.Prim JS.Undefined).

End PostEdit.

(** *** Sample inputs *)

Definition sample_translate (text : string) : string := text.

Definition scheduled_post : Obj.t :=
  {[ "status" := JS.Str "future"; "date" := JS.Str "2999-01-01T00:00:00";
     "password" := JS.Str "secret"; "title" := JS.Str "Hello" ]}.

Definition sample_getEditedEntityRecord (kind name id : string) : Obj.ref :=
  if String.eqb id "7" then Obj.Object scheduled_post
  else Obj.Prim (JS.Bool false).

Definition sample_getEntityRecords (kind name : string)
    : option (list Template.t) :=
  Some [ Template.mk (JS.Str "theme//single") (Some (JS.Str "Single"))
           (JS.Str "single");
         Template.mk (JS.Str "theme//page") (Some (JS.Str ""))
           (JS.Str "page");
         Template.mk (JS.Str "theme//blank") None (JS.Str "blank") ].

Definition sample_Edit (name : string) (p : EditProps.t) : Displayable :=
  match EditProps.templates p with
  | Some templates =>
      DElement "select" name
        (String.concat ","
           ((λ o, match TemplateOption.label o with
                  | JS.Str l => l
                  | _ => ""
                  end) <$> templates))
  | None => DElement "input" name ""
  end.

Definition sample_post_fields : list PostField.t :=
  [ PostField.mk "title" None (sample_Edit "title");
    PostField.mk "status"
      (Some [Element.mk (JS.Str "draft") "Draft";
             Element.mk (JS.Str "trash") "Trash";
             Element.mk (JS.Str "publish") "Published"])
      (sample_Edit "status");
    PostField.mk "template" None (sample_Edit "template") ].

Definition sample_usePostFields (postType : string)
    : option (list PostField.t) :=
  if String.eqb postType "page" then Some sample_post_fields
  else if String.eqb postType "broken" then
    Some [PostField.mk "status" None (sample_Edit "status")]
  else None.

Definition sample_isAfterNow (date : JS.value) : bool :=
  bool_decide (date = JS.Str "2999-01-01T00:00:00").

Definition sample_PostEditForm
    : string → string → Obj.t → outcome FormView :=
  PostEditForm sample_translate sample_getEditedEntityRecord
    sample_getEntityRecords sample_usePostFields sample_isAfterNow.

Definition publish_edits : Obj.t :=
  {[ "status" := JS.Str "publish"; "title" := JS.Str "New" ]}.

Definition private_edits : Obj.t := {[ "status" := JS.Str "private" ]}.

End PostEdit.

(** * The list view sidebar: [list-view-sidebar.js] in
    [packages/edit-post/src/components/secondary-sidebar] *)

Module ListViewSidebar.

(** An element of the document. *)
Definition Element := nat.

(** What the handlers do to the world outside: they dispatch
    [setIsListViewOpened], focus an element, and prevent the default action
    of the event they handle. *)
Inductive Call :=
| SetIsListViewOpened (isOpen : bool)
| Focus (element : Element)
| PreventDefault.

Record KeyEvent := mkKeyEvent { keyCode : Z; defaultPrevented : bool }.

(** The elements the refs hold, and the element that has the focus. *)
Record Refs := mkRefs {
  sidebarRef : Element;
  tabsRef : Element;
  listViewRef : Element;
  activeElement : option Element
}.

Section ListViewSidebar.

(** [ESCAPE] of [@wordpress/keycodes], [focus.tabbable.find] of
    [@wordpress/dom], and [Node.contains], whose argument may be
    [undefined]. *)
Variable ESCAPE : Z.
Variable tabbable : Element → list Element.
Variable contains : Element → option Element → bool.

(** Lines 34-37; [None] is a toggle element that is not there. *)
Definition closeListView (listViewToggleElement : option Element)
    : list Call :=
  SetIsListViewOpened false ::
  match listViewToggleElement with
  | Some element => [Focus element]
  | None => []
  end.

(** Lines 39-47. *)
Definition closeOnEscape (listViewToggleElement : option Element)
    (event : KeyEvent) : list Call :=
  if bool_decide (keyCode event = ESCAPE) && negb (defaultPrevented event)
  then PreventDefault :: closeListView listViewToggleElement
  else [].

(** [element.focus()], for an element that may be [undefined]. *)
Definition focus (element : option Element) : outcome unit * list Call :=
  match element with
  | Some element => (Returned (), [Focus element])
  | None =>
      (Threw (JS.TypeError
                "Cannot read properties of undefined (reading 'focus')"),
       [])
  end.

(** Lines 76-95. *)
Definition handleSidebarFocus (refs : Refs) (currentTab : string)
    : outcome unit * list Call :=
  let tabPanelFocus := head (tabbable (tabsRef refs)) in
  if String.eqb currentTab "list-view" then
    let listViewApplicationFocus := head (tabbable (listViewRef refs)) in
    let listViewFocusArea :=
      if contains (sidebarRef refs) listViewApplicationFocus
      then listViewApplicationFocus
      else tabPanelFocus in
    focus listViewFocusArea
  else focus tabPanelFocus.

(** Lines 97-109, with the state [tab]. *)
Definition handleToggleListViewShortcut
    (listViewToggleElement : option Element) (refs : Refs) (tab : string)
    : outcome unit * list Call :=
  if contains (sidebarRef refs) (activeElement refs)
  then (Returned (), closeListView listViewToggleElement)
  else handleSidebarFocus refs tab.

End ListViewSidebar.

(** *** Sample inputs: a sidebar 10 that holds the tab list 11 with the tabs
    12 and 13, and the list view 14 with the blocks 15 and 16; the toggle
    button 1 and the editor canvas 2 are outside. *)

Definition sample_tabbable (element : Element) : list Element :=
  match element with
  | 10 => [12; 13; 15; 16]
  | 11 => [12; 13]
  | 14 => [15; 16]
  | _ => []
  end.

Definition sample_contains (element : Element) (other : option Element)
    : bool :=
  match element, other with
  | 10, Some n => Nat.leb 10 n && Nat.leb n 16
  | _, _ => false
  end.

Definition sample_refs (active : option Element) : Refs :=
  {| sidebarRef := 10; tabsRef := 11; listViewRef := 14;
     activeElement := active |}.

(** The same sidebar with no block in the list view. *)
Definition empty_tabbable (element : Element) : list Element :=
  match element with
  | 10 | 11 => [12; 13]
  | _ => []
  end.

End ListViewSidebar.

Section ViewList.

(** [ENTER] and [SPACE] of [@wordpress/keycodes] and the [useAsyncList] hook
    of [@wordpress/compose] are imported: the component is parametric in
    them.  The hook's value is the one it has in the render pass at hand. *)
Variables ENTER SPACE : Z.
Variable useAsyncList : list Item.t → AsyncListConfig.t → list Item.t.

Definition is_field (fieldId : option string) (field : Field.t) : Prop :=
  Some (Field.id field) = fieldId.

#[global] Instance is_field_dec fieldId field :
  Decision (is_field fieldId field).
Proof. unfold is_field. apply _. Defined.

(** [fields.find( ( field ) => field.id === fieldId )], as the position of
    the object found. *)
Definition find_field (fieldId : option string) (fs : list Field.t)
    : option nat :=
  fst <$> list_find (is_field fieldId) fs.

(** Reading through a reference that may be [undefined]. *)
Definition deref (h : Heap) (ref : option nat) : option Field.t :=
  ref ≫= λ i, fields h !! i.

Definition usedData (props : Props) (h : Heap) : list Item.t :=
  let shownData := useAsyncList (data h) (AsyncListConfig.mk 3) in
  if deferredRendering props then shownData else data h.

Definition mediaField (props : Props) (h : Heap) : option nat :=
  find_field (Layout.mediaField (View.layout (view props))) (fields h).

Definition primaryField (props : Props) (h : Heap) : option nat :=
  find_field (Layout.primaryField (View.layout (view props))) (fields h).

Definition not_link (format : Format.t) : Prop :=
  Format.type format ≠ "link".

#[global] Instance not_link_dec format : Decision (not_link format).
Proof. unfold not_link. apply _. Defined.

(** [primaryField.formats = primaryField.formats.filter( ... )]: both
    property reads throw on [undefined].  A reference that [find_field]
    returned always has its object in the array. *)
Definition normalize (primaryField : option nat) : M unit :=
  (let! h := get_heap in
   match primaryField with
   | None =>
       throw (JS.TypeError
         "Cannot read properties of undefined (reading 'formats')")
   | Some i =>
       match fields h !! i with
       | None =>
           throw (JS.TypeError
             "Cannot read properties of undefined (reading 'formats')")
       | Some field =>
           match Field.formats field with
           | None =>
               throw (JS.TypeError
                 "Cannot read properties of undefined (reading 'filter')")
           | Some formats =>
               put_fields
                 (<[i := Field.set_formats (filter not_link formats) field]>
                    (fields h))
           end
       end
   end)%js.

Definition is_visible (v : View.t) (field : Field.t) : Prop :=
  JS.includes (View.hiddenFields v) (Field.id field) = false ∧
  JS.includes
    [Layout.primaryField (View.layout v); Layout.mediaField (View.layout v)]
    (Some (Field.id field)) = false.

#[global] Instance is_visible_dec v field : Decision (is_visible v field).
Proof. unfold is_visible. apply _. Defined.

Definition visibleFields (v : View.t) (fs : list Field.t) : list Field.t :=
  filter (is_visible v) fs.

Definition onEnter (props : Props) (item : Item.t) (event : KeyboardEvent)
    : M unit :=
  if JS.includes [ENTER; SPACE] (keyCode event)
  then invoke (onSelectionChange props) [item]
  else ret ().

(** The body of [usedData.map( ( item, index ) => ... )]. *)
Definition renderItem (props : Props) (h : Heap)
    (mediaField primaryField : option Field.t)
    (visibleFields : list Field.t) (index : nat) (item : Item.t) : Row :=
  {| key :=
       JS.or
         (match getItemId props with
          | Some f => f item
          | None => JS.Undefined
          end)
         (JS.Num (Z.of_nat index));
     ariaPressed := JS.includes (selection h) (Item.id item);
     onKeyDown := onEnter props item;
     className :=
       classNames "dataviews-list-view__item"
         [("dataviews-list-view__item-selected",
           JS.includes (selection h) (Item.id item))];
     onClick := invoke (onSelectionChange props) [item];
     media :=
       match mediaField with
       | Some field =>
           if displayable_truthy (Field.render field item)
           then Field.render field item
           else placeholder
       | None => placeholder
       end;
     primary :=
       match primaryField with
       | Some field => Field.render field item
       | None => DEmpty
       end;
     fieldSpans :=
       (λ field, (Field.id field, Field.render field item))
         <$> visibleFields |}.

Definition ViewList (props : Props) : M (list Row) :=
  (let! h := get_heap in
   let usedData := usedData props h in
   let mediaField := mediaField props h in
   let primaryField := primaryField props h in
   normalize primaryField ;;;
   let! h := get_heap in
   let visibleFields := visibleFields (view props) (fields h) in
   ret (imap
          (renderItem props h (deref h mediaField) (deref h primaryField)
             visibleFields)
          usedData))%js.

(** *** What a pass computes, spelled out *)

(** The formats of the object that [primaryField] refers to, when there is
    such an object and it has any. *)
Definition primary_formats (props : Props) (h : Heap)
    : option (list Format.t) :=
  deref h (primaryField props h) ≫= Field.formats.

(** The heap after lines 33-35, for a primary field at position [i]. *)
Definition normalized_heap (i : nat) (h : Heap) : Heap :=
  match fields h !! i with
  | Some field =>
      {| fields :=
           <[i := Field.set_formats
                    (filter not_link (default [] (Field.formats field)))
                    field]> (fields h);
         data := data h;
         selection := selection h |}
  | None => h
  end.

Definition normalized (props : Props) (st : State) : State :=
  match primaryField props (heap st) with
  | Some i => {| heap := normalized_heap i (heap st); trace := trace st |}
  | None => st
  end.

(** The rows for [items], rendered on the heap [h] after the references
    were resolved on [h0]. *)
Definition rows (props : Props) (h0 h : Heap) (items : list Item.t)
    : list Row :=
  imap
    (renderItem props h (deref h (mediaField props h0))
       (deref h (primaryField props h0))
       (visibleFields (view props) (fields h)))
    items.

(** The visible fields as the specification words them: the fields, less
    the hidden ones, less the media and the primary field. *)
Definition visibleFields_spec (v : View.t) (fs : list Field.t)
    : list Field.t :=
  filter
    (λ field,
       Some (Field.id field) ≠ Layout.mediaField (View.layout v) ∧
       Some (Field.id field) ≠ Layout.primaryField (View.layout v))
    (filter (λ field, Field.id field ∉ View.hiddenFields v) fs).

(** *** Sample inputs *)

Definition attribute (name : string) (item : Item.t) : Displayable :=
  match list_find (λ a : string * JS.value, a.1 = name)
          (Item.attributes item) with
  | Some (_, (_, JS.Str s)) => DText s
  | Some (_, (_, JS.Num n)) => DNumber n
  | _ => DEmpty
  end.

Definition sample_fields : list Field.t :=
  [ Field.mk "image" (attribute "image") None;
    Field.mk "title" (attribute "title")
      (Some [Format.mk "link" [("href", JS.Str "/post")];
             Format.mk "bold" []]);
    Field.mk "author" (attribute "author") (Some [Format.mk "link" []]);
    Field.mk "status" (attribute "status") None;
    Field.mk "date" (attribute "date") None ].

Definition sample_view : View.t :=
  View.mk (Layout.mk (Some "image") (Some "title")) ["status"].

Definition sample_item (n : Z) : Item.t :=
  Item.mk (JS.Num n) [("title", JS.Str "Hello"); ("author", JS.Str "admin")].

Definition sample_data : list Item.t :=
  [sample_item 1; sample_item 2; sample_item 3].

Definition long_data : list Item.t :=
  sample_item <$> [0; 1; 2; 3; 4; 5; 6; 7]%Z.

(** A caller that keeps the ids of the items it is notified of. *)
Definition select (selectedItems : list Item.t) (h : Heap) : Heap :=
  {| fields := fields h; data := data h;
     selection := Item.id <$> selectedItems |}.

Definition sample_props : Props :=
  {| view := sample_view; getItemId := None; onSelectionChange := select;
     deferredRendering := false |}.

Definition keyed_props : Props :=
  {| view := sample_view; getItemId := Some Item.id;
     onSelectionChange := select; deferredRendering := false |}.

Definition deferred_props : Props :=
  {| view := sample_view; getItemId := Some Item.id;
     onSelectionChange := select; deferredRendering := true |}.

Definition sample_state : State :=
  {| heap := {| fields := sample_fields; data := sample_data;
                selection := [JS.Num 2] |};
     trace := [] |}.

Definition long_state : State :=
  {| heap := {| fields := sample_fields; data := long_data;
                selection := [] |};
     trace := [] |}.

(** Items whose ids are falsy, after one whose id is not. *)
Definition falsy_state : State :=
  {| heap := {| fields := sample_fields;
                data := [sample_item 5; sample_item 0;
                         Item.mk (JS.Str "") []];
                selection := [] |};
     trace := [] |}.

(** No field at all, and a primary field configured. *)
Definition fieldless_state : State :=
  {| heap := {| fields := []; data := sample_data; selection := [] |};
     trace := [] |}.

(** An item whose id is the position of an item whose id is falsy. *)
Definition colliding_state : State :=
  {| heap := {| fields := sample_fields;
                data := [sample_item 1; sample_item 0];
                selection := [] |};
     trace := [] |}.

(** The primary field has no [formats] property; the media field is the
    primary field. *)
Definition bare_state : State :=
  {| heap := {| fields := [Field.mk "title" (attribute "title") None];
                data := sample_data; selection := [] |};
     trace := [] |}.

Definition media_props : Props :=
  {| view := View.mk (Layout.mk (Some "title") (Some "title")) [];
     getItemId := None; onSelectionChange := select;
     deferredRendering := false |}.

Definition media_state : State :=
  {| heap := {| fields :=
                  [Field.mk "title" (attribute "title")
                     (Some [Format.mk "link" []])];
                data := [sample_item 1; Item.mk (JS.Num 2) []];
                selection := [] |};
     trace := [] |}.

(** The props with [deferredRendering] set. *)
Definition set_deferredRendering (b : bool) (props : Props) : Props :=
  {| view := view props; getItemId := getItemId props;
     onSelectionChange := onSelectionChange props; deferredRendering := b |}.

(** The reading of "no side effect" that a pass is held against: it leaves
    the state as it found it. *)
Definition leaves_state_unchanged (props : Props) (st : State) : Prop :=
  (ViewList props st).2 = st.

(** ** Properties *)

(** *** Arrays *)

Lemma includes_true {A} `{EqDecision A} (l : list A) (x : A) :
  JS.includes l x = true ↔ x ∈ l.
Proof.
  induction l as [|y l IH]; simpl.
  - split; [discriminate | intros H0; inversion H0].
  - destruct (decide (y = x)) as [->|Hne].
    + split; [intros _; left | reflexivity].
    + rewrite IH. split; [by right | intros Hin].
      apply elem_of_cons in Hin as [Heq|Hin]; [congruence | done].
Qed.

Lemma includes_false {A} `{EqDecision A} (l : list A) (x : A) :
  JS.includes l x = false ↔ x ∉ l.
Proof.
  rewrite <- includes_true. destruct (JS.includes l x); split; congruence.
Qed.

Lemma find_field_Some fieldId fs i :
  find_field fieldId fs = Some i →
  ∃ field, fs !! i = Some field ∧ is_field fieldId field ∧
    ∀ j other, fs !! j = Some other → j < i → ¬ is_field fieldId other.
Proof.
  unfold find_field. intros Hfind.
  destruct (list_find (is_field fieldId) fs) as [[i' field]|] eqn:E;
    simplify_eq/=.
  apply list_find_Some in E as (Hi & Hid & Hfirst). eauto.
Qed.

Lemma find_field_None fieldId fs :
  find_field fieldId fs = None ↔
    ∀ field, field ∈ fs → ¬ is_field fieldId field.
Proof.
  unfold find_field. rewrite fmap_None, list_find_None, Forall_forall.
  reflexivity.
Qed.

(** *** The two ways a pass ends *)

Lemma primary_formats_Some props h formats :
  primary_formats props h = Some formats →
  ∃ i field, primaryField props h = Some i ∧ fields h !! i = Some field ∧
    Field.formats field = Some formats.
Proof.
  unfold primary_formats, deref. intros Hpf.
  destruct (primaryField props h) as [i|]; simpl in Hpf; [|done].
  destruct (fields h !! i) as [field|] eqn:Hi; simpl in Hpf; [|done].
  eauto.
Qed.

Lemma ViewList_returns props st formats :
  primary_formats props (heap st) = Some formats →
  ViewList props st =
    (Returned
       (rows props (heap st) (heap (normalized props st))
          (usedData props (heap st))),
     normalized props st).
Proof.
  intros (i & field & Hp & Hi & Hf)%primary_formats_Some.
  unfold ViewList, normalized, rows, normalize, bind, get_heap, put_fields,
    ret, normalized_heap.
  simpl. rewrite Hp, Hi, Hf. reflexivity.
Qed.

Lemma ViewList_throws props st :
  primary_formats props (heap st) = None →
  ∃ message, ViewList props st = (Threw (JS.TypeError message), st).
Proof.
  unfold primary_formats, deref, ViewList, normalize, bind, get_heap, throw.
  simpl. intros Hpf.
  destruct (primaryField props (heap st)) as [i|]; simpl in *; [|eauto].
  destruct (fields (heap st) !! i) as [field|]; simpl in *; [|eauto].
  rewrite Hpf. eauto.
Qed.

(** A returned row is the one rendered for the item at its position. *)
Lemma rows_lookup props h0 h items index X :
  items !! index = Some X →
  rows props h0 h items !! index =
    Some (renderItem props h (deref h (mediaField props h0))
            (deref h (primaryField props h0))
            (visibleFields (view props) (fields h)) index X).
Proof. intros HX. unfold rows. by rewrite list_lookup_imap, HX. Qed.

Lemma length_rows props h0 h items :
  length (rows props h0 h items) = length items.
Proof. apply length_imap. Qed.

Lemma normalized_selection props st :
  selection (heap (normalized props st)) = selection (heap st).
Proof.
  unfold normalized, normalized_heap.
  destruct (primaryField props (heap st)) as [i|]; [|done]. simpl.
  by destruct (fields (heap st) !! i).
Qed.

Lemma normalized_data props st :
  data (heap (normalized props st)) = data (heap st).
Proof.
  unfold normalized, normalized_heap.
  destruct (primaryField props (heap st)) as [i|]; [|done]. simpl.
  by destruct (fields (heap st) !! i).
Qed.

Lemma normalized_trace props st : trace (normalized props st) = trace st.
Proof.
  unfold normalized. by destruct (primaryField props (heap st)).
Qed.

(** *** Selection by pointer and by keyboard *)

(** C1: a click on the row of item [X] invokes [onSelectionChange] exactly
    once, with the one-element array [[X]], whatever the state (and so the
    selection) it happens in: the call is the only entry the click adds to
    the record of invocations, and the heap is what that call makes of
    it. *)
Theorem click_selects_exactly_the_item props st formats :
  primary_formats props (heap st) = Some formats →
  ∃ rendered st',
    ViewList props st = (Returned rendered, st') ∧
    ∀ index X,
      usedData props (heap st) !! index = Some X →
      ∃ row,
        rendered !! index = Some row ∧
        ∀ before : State,
          onClick row before =
            (Returned (),
             {| heap := onSelectionChange props [X] (heap before);
                trace := trace before ++ [[X]] |}).
Proof.
  intros Hpf. eexists _, _. split; [by eapply ViewList_returns|].
  intros index X HX. eexists. split; [by apply rows_lookup|].
  reflexivity.
Qed.

(** C3: a keydown whose [keyCode] is [ENTER] or [SPACE] on the row of an
    item does what a click on it does, one invocation of
    [onSelectionChange] with [[item]]; a keydown with any other [keyCode]
    invokes nothing and leaves the state as it is. *)
Theorem keydown_enter_or_space_selects props st formats :
  primary_formats props (heap st) = Some formats →
  ∃ rendered st',
    ViewList props st = (Returned rendered, st') ∧
    ∀ index X,
      usedData props (heap st) !! index = Some X →
      ∃ row,
        rendered !! index = Some row ∧
        ∀ (event : KeyboardEvent) (before : State),
          (keyCode event = ENTER ∨ keyCode event = SPACE →
           onKeyDown row event before = onClick row before ∧
           trace (onKeyDown row event before).2 = trace before ++ [[X]]) ∧
          (keyCode event ≠ ENTER → keyCode event ≠ SPACE →
           onKeyDown row event before = (Returned (), before)).
Proof.
  intros Hpf. eexists _, _. split; [by eapply ViewList_returns|].
  intros index X HX. eexists. split; [by apply rows_lookup|].
  intros event before. simpl. unfold onEnter. split.
  - intros Hkey.
    assert (JS.includes [ENTER; SPACE] (keyCode event) = true) as ->.
    { apply includes_true. rewrite !elem_of_cons.
      destruct Hkey as [Hkey|Hkey]; auto. }
    done.
  - intros HE HS.
    assert (JS.includes [ENTER; SPACE] (keyCode event) = false) as ->.
    { apply includes_false. rewrite !elem_of_cons, elem_of_nil.
      intros [Hkey|[Hkey|[]]]; done. }
    done.
Qed.

(** *** What a row shows *)

(** C8: a rendered item is marked pressed, and carries the selected class,
    exactly when its id is in the selection.  With the items of ids 1, 2, 3
    and the selection {2}, the second row is pressed and the other two are
    not. *)
Theorem pressed_iff_selected props st formats :
  primary_formats props (heap st) = Some formats →
  (∃ rendered st',
     ViewList props st = (Returned rendered, st') ∧
     ∀ index X,
       usedData props (heap st) !! index = Some X →
       ∃ row,
         rendered !! index = Some row ∧
         (ariaPressed row = true ↔ Item.id X ∈ selection (heap st)) ∧
         (className row =
            "dataviews-list-view__item dataviews-list-view__item-selected"
          ↔ Item.id X ∈ selection (heap st)) ∧
         (className row = "dataviews-list-view__item"
          ↔ Item.id X ∉ selection (heap st))) ∧
  (∃ rendered st',
     ViewList sample_props sample_state = (Returned rendered, st') ∧
     Item.id <$> data (heap sample_state)
       = [JS.Num 1; JS.Num 2; JS.Num 3] ∧
     selection (heap sample_state) = [JS.Num 2] ∧
     ariaPressed <$> rendered = [false; true; false]).
Proof.
  intros Hpf. split.
  - eexists _, _. split; [by eapply ViewList_returns|].
    intros index X HX. eexists. split; [by apply rows_lookup|].
    simpl. rewrite normalized_selection. unfold classNames. simpl.
    destruct (JS.includes (selection (heap st)) (Item.id X)) eqn:E.
    + apply includes_true in E. repeat split; try done.
    + apply includes_false in E. repeat split; try done.
  - eexists _, _. split; [by eapply (ViewList_returns sample_props)|].
    by vm_compute.
Qed.

(** C10: the key of a row is the item's position in the rendered list when
    [getItemId] is absent and also whenever [getItemId] returns a falsy
    value for the item, such as the id 0 or the empty string; it is the
    value that [getItemId] returns only when that value is truthy. *)
Theorem key_falls_back_to_index props st formats :
  primary_formats props (heap st) = Some formats →
  ∃ rendered st',
    ViewList props st = (Returned rendered, st') ∧
    ∀ index X,
      usedData props (heap st) !! index = Some X →
      ∃ row,
        rendered !! index = Some row ∧
        (getItemId props = None → key row = JS.Num (Z.of_nat index)) ∧
        (∀ f, getItemId props = Some f →
           JS.truthy (f X) = false → key row = JS.Num (Z.of_nat index)) ∧
        (∀ f, getItemId props = Some f →
           f X = JS.Num 0 ∨ f X = JS.Str "" →
           key row = JS.Num (Z.of_nat index)) ∧
        (∀ f, getItemId props = Some f →
           JS.truthy (f X) = true → key row = f X).
Proof.
  intros Hpf. eexists _, _. split; [by eapply ViewList_returns|].
  intros index X HX. eexists. split; [by apply rows_lookup|].
  simpl. unfold JS.or. repeat split.
  - by intros ->.
  - intros f -> Hf. by rewrite Hf.
  - intros f -> [Hf|Hf]; by rewrite Hf.
  - intros f -> Hf. by rewrite Hf.
Qed.

(** *** Which items are rendered *)

(** C6: without deferred rendering a pass renders a row for every item of
    [data], however many there are; with deferred rendering it renders the
    rows of the prefix that the reveal scheduler, called with the list and
    a step of 3, holds at that moment. *)
Theorem rendered_items props st formats :
  primary_formats props (heap st) = Some formats →
  ∃ rendered st',
    ViewList props st = (Returned rendered, st') ∧
    (deferredRendering props = false →
     rendered = rows props (heap st) (heap st') (data (heap st)) ∧
     length rendered = length (data (heap st))) ∧
    (deferredRendering props = true →
     let shownData :=
       useAsyncList (data (heap st)) (AsyncListConfig.mk 3) in
     rendered = rows props (heap st) (heap st') shownData ∧
     length rendered = length shownData).
Proof.
  intros Hpf. eexists _, _. split; [by eapply ViewList_returns|].
  unfold usedData. split; intros ->; simpl; by rewrite length_rows.
Qed.

(** *** The fields *)

(** Replacing an object by one of the same id moves no reference. *)
Lemma find_field_insert fieldId fs i field field' :
  fs !! i = Some field →
  Field.id field' = Field.id field →
  find_field fieldId (<[i := field']> fs) = find_field fieldId fs.
Proof.
  unfold find_field. revert i.
  induction fs as [|first fs IH]; intros [|i] Hi Hid; simplify_eq/=.
  - destruct (decide (is_field fieldId field')) as [Hy|Hn],
      (decide (is_field fieldId field)) as [Hy'|Hn']; try done;
      unfold is_field in *; congruence.
  - destruct (decide (is_field fieldId first)); [done|].
    rewrite <- !option_fmap_compose.
    specialize (IH i Hi Hid).
    destruct (list_find _ (<[i:=field']> fs)) as [[]|],
      (list_find _ fs) as [[]|]; simplify_eq/=; done.
Qed.

Lemma primary_is_not_visible v field :
  is_field (Layout.primaryField (View.layout v)) field →
  ¬ is_visible v field.
Proof.
  unfold is_field, is_visible. intros <- [_ Hinc]. simpl in Hinc.
  by rewrite decide_True in Hinc.
Qed.

(** The visible fields do not depend on the state of the primary field. *)
Lemma visibleFields_insert v fs i field field' :
  fs !! i = Some field →
  is_field (Layout.primaryField (View.layout v)) field →
  Field.id field' = Field.id field →
  visibleFields v (<[i := field']> fs) = visibleFields v fs.
Proof.
  unfold visibleFields. revert i.
  induction fs as [|first fs IH]; intros [|i] Hi Hp Hid; simplify_eq/=.
  - rewrite !filter_cons_False; [done| |]; apply primary_is_not_visible;
      [done|]. unfold is_field in *. by rewrite Hid.
  - rewrite !filter_cons, (IH i); done.
Qed.

Lemma is_visible_spec v field :
  is_visible v field ↔
    (Some (Field.id field) ≠ Layout.mediaField (View.layout v) ∧
     Some (Field.id field) ≠ Layout.primaryField (View.layout v)) ∧
    Field.id field ∉ View.hiddenFields v.
Proof.
  unfold is_visible.
  rewrite !includes_false, !elem_of_cons, elem_of_nil.
  split.
  - intros [Hh Hpm]. repeat split; [| |done]; intros Heq; apply Hpm; auto.
  - intros [[Hm Hp] Hh]. split; [done|]. intros [?|[?|[]]]; done.
Qed.

Lemma visibleFields_normalized props st formats :
  primary_formats props (heap st) = Some formats →
  visibleFields (view props) (fields (heap (normalized props st))) =
    visibleFields (view props) (fields (heap st)).
Proof.
  intros (i & field & Hp & Hi & Hf)%primary_formats_Some.
  unfold normalized, normalized_heap. rewrite Hp. simpl. rewrite Hi. simpl.
  apply find_field_Some in Hp as (field0 & Hi0 & Hid & _).
  simplify_eq. by eapply visibleFields_insert.
Qed.

(** C4: the visible fields are the fields, less the hidden ones, less the
    media and the primary field, in the order of the fields list; a field
    whose id is the media or the primary field id is never among them,
    hidden or not.  In a pass, the secondary values of every row are those
    of the visible fields of the list the caller passed. *)
Theorem visibleFields_are_the_remaining_fields (v : View.t)
    (fs : list Field.t) :
  visibleFields v fs = visibleFields_spec v fs ∧
  (visibleFields v fs `sublist_of` fs) ∧
  (∀ field,
     field ∈ visibleFields v fs ↔
     field ∈ fs ∧
     (Field.id field ∉ View.hiddenFields v) ∧
     Some (Field.id field) ≠ Layout.mediaField (View.layout v) ∧
     Some (Field.id field) ≠ Layout.primaryField (View.layout v)) ∧
  (∀ props st formats,
     view props = v → fields (heap st) = fs →
     primary_formats props (heap st) = Some formats →
     ∃ rendered st',
       ViewList props st = (Returned rendered, st') ∧
       ∀ index X,
         usedData props (heap st) !! index = Some X →
         ∃ row,
           rendered !! index = Some row ∧
           fieldSpans row =
             (λ field, (Field.id field, Field.render field X))
               <$> visibleFields_spec v fs).
Proof.
  assert (visibleFields v fs = visibleFields_spec v fs) as Hspec.
  { unfold visibleFields, visibleFields_spec.
    rewrite list_filter_filter. apply list_filter_iff.
    intros field. apply is_visible_spec. }
  split; [done|]. split; [apply sublist_filter|]. split.
  - intros field. unfold visibleFields.
    rewrite list_elem_of_filter, is_visible_spec. tauto.
  - intros props st formats <- <- Hpf.
    eexists _, _. split; [by eapply ViewList_returns|].
    intros index X HX. eexists. split; [by apply rows_lookup|].
    simpl. by erewrite visibleFields_normalized, Hspec.
Qed.

(** C5: when a field's id is the configured primary field id, a pass
    returns, and in the state it leaves that field (the one the component
    resolves as primary), still the primary field, has formats without any
    entry of type link: they are the formats it had, less the links. *)
Theorem primary_formats_have_no_link props st i field formats :
  primaryField props (heap st) = Some i →
  fields (heap st) !! i = Some field →
  Field.formats field = Some formats →
  ∃ rendered st' field' formats',
    ViewList props st = (Returned rendered, st') ∧
    primaryField props (heap st') = Some i ∧
    fields (heap st') !! i = Some field' ∧
    Field.id field' = Field.id field ∧
    Field.formats field' = Some formats' ∧
    formats' = filter not_link formats ∧
    ∀ format, format ∈ formats' → Format.type format ≠ "link".
Proof.
  intros Hp Hi Hf.
  assert (primary_formats props (heap st) = Some formats) as Hpf.
  { unfold primary_formats, deref. rewrite Hp. simpl. by rewrite Hi. }
  eexists _, _, _, _. split; [by eapply ViewList_returns|].
  unfold normalized, normalized_heap. rewrite Hp. simpl. rewrite Hi, Hf.
  simpl. split_and!.
  - unfold primaryField in *. simpl.
    by rewrite (find_field_insert _ _ _ field).
  - apply list_lookup_insert_eq. by eapply lookup_lt_Some.
  - done.
  - done.
  - done.
  - by intros format [Hnl _]%list_elem_of_filter.
Qed.

(** *** What a pass and the handlers change *)

Lemma rows_elem_of props h0 h items row :
  row ∈ rows props h0 h items →
  ∃ index X,
    items !! index = Some X ∧
    row = renderItem props h (deref h (mediaField props h0))
            (deref h (primaryField props h0))
            (visibleFields (view props) (fields h)) index X.
Proof.
  intros (index & Hrow)%list_elem_of_lookup. unfold rows in Hrow.
  apply list_lookup_imap_Some in Hrow as (X & HX & ->). eauto.
Qed.

(** C7, as it holds: a pass never changes [data] or [selection] and invokes
    [onSelectionChange] not once; what it does change is the primary field,
    whose formats it replaces by those that are not links, and no other
    field.  The handlers of a row change the state only through
    [onSelectionChange]. *)
Theorem render_pass_frame props st :
  let result := ViewList props st in
  data (heap result.2) = data (heap st) ∧
  selection (heap result.2) = selection (heap st) ∧
  trace result.2 = trace st ∧
  length (fields (heap result.2)) = length (fields (heap st)) ∧
  (∀ j,
     fields (heap result.2) !! j ≠ fields (heap st) !! j →
     primaryField props (heap st) = Some j ∧
     ∃ field formats,
       fields (heap st) !! j = Some field ∧
       Field.formats field = Some formats ∧
       fields (heap result.2) !! j =
         Some (Field.set_formats (filter not_link formats) field)) ∧
  (∀ rendered row,
     result.1 = Returned rendered → row ∈ rendered →
     ∃ X,
       X ∈ usedData props (heap st) ∧
       ∀ (event : KeyboardEvent) (before : State),
         (onClick row before).2 =
           {| heap := onSelectionChange props [X] (heap before);
              trace := trace before ++ [[X]] |} ∧
         ((onKeyDown row event before).2 = before ∨
          (onKeyDown row event before).2 = (onClick row before).2)).
Proof.
  simpl. destruct (primary_formats props (heap st)) as [formats|] eqn:Hpf.
  - rewrite (ViewList_returns _ _ _ Hpf). simpl.
    rewrite normalized_data, normalized_selection, normalized_trace.
    split_and!; try done.
    + apply primary_formats_Some in Hpf as (i & field & Hp & Hi & Hf).
      unfold normalized, normalized_heap. rewrite Hp. simpl. rewrite Hi.
      simpl. apply length_insert.
    + apply primary_formats_Some in Hpf as (i & field & Hp & Hi & Hf).
      unfold normalized, normalized_heap. rewrite Hp. simpl.
      rewrite Hi, Hf. simpl. intros j Hj.
      destruct (decide (i = j)) as [<-|Hne].
      * split; [done|]. eexists _, _. split_and!; [done|done|].
        apply list_lookup_insert_eq. by eapply lookup_lt_Some.
      * by rewrite list_lookup_insert_ne in Hj.
    + intros rendered row [= <-] (index & X & HX & ->)%rows_elem_of.
      exists X. split; [by eapply list_elem_of_lookup_2|].
      intros event before. split; [done|]. simpl. unfold onEnter.
      destruct (JS.includes [ENTER; SPACE] (keyCode event)); auto.
  - destruct (ViewList_throws _ _ Hpf) as [message ->]. simpl.
    split_and!; done.
Qed.

(** A pass over fields none of which is the primary field throws where
    line 33 reads [formats]. *)
Lemma ViewList_without_primary props st :
  (∀ field, field ∈ fields (heap st) →
     Some (Field.id field)
       ≠ Layout.primaryField (View.layout (view props))) →
  ViewList props st =
    (Threw (JS.TypeError
              "Cannot read properties of undefined (reading 'formats')"),
     st).
Proof.
  intros Hnone.
  assert (primaryField props (heap st) = None) as Hp.
  { unfold primaryField. by apply find_field_None. }
  unfold ViewList, normalize, bind, get_heap, throw. simpl.
  by rewrite Hp.
Qed.

(** *** More on a pass: errors, a second pass, the media cell, the keys *)

(** The objects of the array keep their id and their [render] through a
    pass. *)
Lemma normalized_lookup props st j field :
  fields (heap st) !! j = Some field →
  ∃ field',
    fields (heap (normalized props st)) !! j = Some field' ∧
    Field.id field' = Field.id field ∧
    Field.render field' = Field.render field.
Proof.
  intros Hj. unfold normalized, normalized_heap.
  destruct (primaryField props (heap st)) as [i|]; simpl; [|eauto].
  destruct (fields (heap st) !! i) as [primary|] eqn:Hi; simpl; [|eauto].
  destruct (decide (i = j)) as [->|Hne].
  - simplify_eq. eexists. split.
    + apply list_lookup_insert_eq. by eapply lookup_lt_Some.
    + done.
  - rewrite list_lookup_insert_ne by done. eauto.
Qed.

Lemma filter_not_link_idemp (formats : list Format.t) :
  filter not_link (filter not_link formats) = filter not_link formats.
Proof. apply list_filter_filter_l. done. Qed.

(** X1: When the primary field is found but has no [formats] property, the pass
    throws where line 33 calls [filter], and nothing has changed. *)
Theorem ViewList_throws_without_formats props st i field :
  primaryField props (heap st) = Some i →
  fields (heap st) !! i = Some field →
  Field.formats field = None →
  ViewList props st =
    (Threw (JS.TypeError
              "Cannot read properties of undefined (reading 'filter')"),
     st).
Proof.
  intros Hp Hi Hf.
  unfold ViewList, normalize, bind, get_heap, throw. simpl.
  by rewrite Hp, Hi, Hf.
Qed.

(** X2: A pass that follows a pass that returned returns as well and changes
    nothing: the formats of the primary field are filtered once and stay as
    they are. *)
Theorem second_pass_changes_nothing props st formats :
  primary_formats props (heap st) = Some formats →
  ∃ rendered st' again,
    ViewList props st = (Returned rendered, st') ∧
    ViewList props st' = (Returned again, st') ∧
    primary_formats props (heap st') = Some (filter not_link formats).
Proof.
  intros Hpf.
  destruct (primary_formats_Some _ _ _ Hpf) as (i & field & Hp & Hi & Hf).
  assert (normalized props st =
            {| heap :=
                 {| fields :=
                      <[i := Field.set_formats (filter not_link formats)
                               field]> (fields (heap st));
                    data := data (heap st);
                    selection := selection (heap st) |};
               trace := trace st |}) as Hst'.
  { unfold normalized, normalized_heap. by rewrite Hp, Hi, Hf. }
  assert (primaryField props (heap (normalized props st)) = Some i) as Hp'.
  { rewrite Hst'. unfold primaryField in *. simpl.
    by rewrite (find_field_insert _ _ _ field). }
  assert (fields (heap (normalized props st)) !! i
          = Some (Field.set_formats (filter not_link formats) field)) as Hi'.
  { rewrite Hst'. simpl. apply list_lookup_insert_eq.
    by eapply lookup_lt_Some. }
  assert (primary_formats props (heap (normalized props st))
          = Some (filter not_link formats)) as Hpf'.
  { unfold primary_formats, deref. rewrite Hp'. simpl. by rewrite Hi'. }
  eexists _, _, _. split; [by eapply ViewList_returns|].
  split; [|done].
  rewrite (ViewList_returns _ _ _ Hpf'). f_equal.
  unfold normalized at 1. rewrite Hp'. unfold normalized_heap.
  rewrite Hi'. simpl. rewrite Hst'. simpl.
  by rewrite filter_not_link_idemp, list_insert_insert_eq.
Qed.

(** X3: The media cell of a row is the placeholder when no field has the media
    field id, and otherwise what the first such field renders for the item,
    unless that is falsy, when it is the placeholder again. *)
Theorem media_cell props st formats :
  primary_formats props (heap st) = Some formats →
  ∃ rendered st',
    ViewList props st = (Returned rendered, st') ∧
    ∀ index X,
      usedData props (heap st) !! index = Some X →
      ∃ row,
        rendered !! index = Some row ∧
        ((∀ field, field ∈ fields (heap st) →
            Some (Field.id field)
              ≠ Layout.mediaField (View.layout (view props))) →
         media row = placeholder) ∧
        (∀ j field,
           mediaField props (heap st) = Some j →
           fields (heap st) !! j = Some field →
           media row =
             if displayable_truthy (Field.render field X)
             then Field.render field X else placeholder).
Proof.
  intros Hpf. eexists _, _. split; [by eapply ViewList_returns|].
  intros index X HX. eexists. split; [by apply rows_lookup|].
  simpl. split.
  - intros Hnone.
    assert (mediaField props (heap st) = None) as ->; [|done].
    unfold mediaField. by apply find_field_None.
  - intros j field -> Hj. simpl.
    destruct (normalized_lookup props st j field Hj) as (f' & -> & _ & ->).
    done.
Qed.

#[local] Instance index_key_inj : Inj (=) (=) (λ n, JS.Num (Z.of_nat n)).
Proof. intros m n [= Heq]. lia. Qed.

(** X5: The keys of the rows, in order: the positions 0, 1, 2, ... when there is
    no [getItemId], so that no two rows share a key; the ids that [getItemId]
    returns when each of them is truthy. *)
Theorem keys_in_order props st formats :
  primary_formats props (heap st) = Some formats →
  ∃ rendered st',
    ViewList props st = (Returned rendered, st') ∧
    (getItemId props = None →
     key <$> rendered =
       (λ n, JS.Num (Z.of_nat n))
         <$> seq 0 (length (usedData props (heap st))) ∧
     NoDup (key <$> rendered)) ∧
    (∀ f,
       getItemId props = Some f →
       (∀ X, X ∈ usedData props (heap st) → JS.truthy (f X) = true) →
       key <$> rendered = f <$> usedData props (heap st)).
Proof.
  intros Hpf. eexists _, _. split; [by eapply ViewList_returns|].
  unfold rows. rewrite fmap_imap. split.
  - intros Hnone.
    assert (∀ items : list Item.t,
              imap (λ n, key ∘ renderItem props (heap (normalized props st))
                      (deref (heap (normalized props st))
                         (mediaField props (heap st)))
                      (deref (heap (normalized props st))
                         (primaryField props (heap st)))
                      (visibleFields (view props)
                         (fields (heap (normalized props st)))) n) items
              = (λ n, JS.Num (Z.of_nat n)) <$> seq 0 (length items)) as Hkeys.
    { intros items. rewrite <- imap_seq_0. apply imap_ext.
      intros n X _. simpl. by rewrite Hnone. }
    rewrite Hkeys. split; [done|].
    apply (NoDup_fmap_2 _), NoDup_seq.
  - intros f Hf Htruthy. rewrite <- imap_const. apply imap_ext.
    intros n X HX. simpl. rewrite Hf. unfold JS.or.
    rewrite Htruthy; [done|]. by eapply list_elem_of_lookup_2.
Qed.

(** X6: Two rows share a key when [getItemId] returns a falsy value for the item
    of the one and, for the item of the other, the position of the first. *)
Theorem keys_collide props st formats f i j X Y :
  primary_formats props (heap st) = Some formats →
  getItemId props = Some f →
  usedData props (heap st) !! i = Some X →
  usedData props (heap st) !! j = Some Y →
  i ≠ j → j ≠ 0 →
  f X = JS.Num (Z.of_nat j) →
  JS.truthy (f Y) = false →
  ∃ rendered st' row_i row_j,
    ViewList props st = (Returned rendered, st') ∧
    rendered !! i = Some row_i ∧ rendered !! j = Some row_j ∧
    key row_i = key row_j.
Proof.
  intros Hpf Hf HX HY Hij Hj HfX HfY.
  eexists _, _, _, _. split; [by eapply ViewList_returns|].
  split; [by apply rows_lookup|]. split; [by apply rows_lookup|].
  simpl. rewrite Hf, HfX. unfold JS.or. rewrite HfY. simpl.
  destruct (Z.eqb_spec (Z.of_nat j) 0); [lia|done].
Qed.

(** X7: Whatever the hook reveals, as long as it is a prefix of [data]: the rows
    of a deferred pass are the first rows of the pass that is not deferred,
    with their keys and handlers, and both passes leave the same state. *)
Theorem deferred_rows_are_a_prefix props st formats :
  primary_formats props (heap st) = Some formats →
  useAsyncList (data (heap st)) (AsyncListConfig.mk 3)
    `prefix_of` data (heap st) →
  ∃ shown all st',
    ViewList (set_deferredRendering true props) st = (Returned shown, st') ∧
    ViewList (set_deferredRendering false props) st = (Returned all, st') ∧
    shown `prefix_of` all.
Proof.
  intros Hpf [rest Hrest].
  eexists _, _, _.
  split; [by apply (ViewList_returns (set_deferredRendering true props) st
                      formats)|].
  split; [by apply (ViewList_returns (set_deferredRendering false props) st
                      formats)|].
  unfold usedData. simpl. rewrite Hrest at 2.
  unfold rows. rewrite imap_app. by eexists.
Qed.

End ViewList.

(** ** The reveal scheduler *)

Lemma reveal_take {A} (ticks : nat) (fullList : list A)
    (config : AsyncListConfig.t) :
  AsyncList.reveal ticks fullList config =
    take (ticks * AsyncListConfig.step config) fullList.
Proof.
  induction ticks as [|n IH]; simpl; [done|].
  unfold AsyncList.tick. rewrite IH, length_take.
  destruct (decide (n * AsyncListConfig.step config ≤ length fullList)%nat).
  - f_equal. lia.
  - rewrite !take_ge; [done|lia|lia].
Qed.

(** C9: with deferred rendering and a batch size of 3, the list of [N] items
    is revealed as prefixes of 3, 6, 9, ... items, clamped to [N]: after [k]
    ticks the prefix has [min (3 * k) N] items, each tick's prefix extends
    the one before, the whole list is there from tick [N / 3] (rounded up)
    on and not before, and a pass renders one row for each item of the
    prefix. *)
Theorem reveal_is_a_growing_prefix (items : list Item.t) :
  let config := AsyncListConfig.mk 3 in
  let N := length items in
  let shown k := AsyncList.useAsyncList k items config in
  (∀ k, length (shown k) = Nat.min (3 * k) N) ∧
  (∀ k, (length (shown k) ≤ length (shown (S k)))%nat) ∧
  (∀ k, shown k `prefix_of` shown (S k)) ∧
  (∀ k, shown k `prefix_of` items) ∧
  (∀ k, (AsyncList.final_tick N 3 ≤ k)%nat → shown k = items) ∧
  (∀ k, (k < AsyncList.final_tick N 3)%nat → (length (shown k) < N)%nat) ∧
  (∀ ENTER SPACE props st formats k,
     deferredRendering props = true →
     data (heap st) = items →
     primary_formats props (heap st) = Some formats →
     ∃ rendered st',
       ViewList ENTER SPACE (AsyncList.useAsyncList k) props st
         = (Returned rendered, st') ∧
       length rendered = Nat.min (3 * k) N).
Proof.
  intros config N shown.
  assert (∀ k, shown k = take (3 * k) items) as Hshown.
  { intros k. unfold shown, AsyncList.useAsyncList. rewrite reveal_take.
    simpl. f_equal. lia. }
  assert (∀ k, length (shown k) = Nat.min (3 * k) N) as Hlen.
  { intros k. by rewrite Hshown, length_take. }
  split_and!.
  - done.
  - intros k. rewrite !Hlen. lia.
  - intros k. rewrite !Hshown.
    replace (take (3 * k) items) with (take (3 * k) (take (3 * S k) items)).
    + apply prefix_take.
    + rewrite take_take. f_equal. lia.
  - intros k. rewrite Hshown. apply prefix_take.
  - intros k Hk. rewrite Hshown. apply take_ge. fold N.
    unfold AsyncList.final_tick in Hk.
    pose proof (Nat.div_mod_eq (N + 3 - 1) 3) as Hdiv.
    pose proof (Nat.mod_upper_bound (N + 3 - 1) 3). lia.
  - intros k Hk. rewrite Hlen.
    unfold AsyncList.final_tick in Hk.
    pose proof (Nat.div_mod_eq (N + 3 - 1) 3) as Hdiv. lia.
  - intros ENTER SPACE props st formats k Hdef Hdata Hpf.
    eexists _, _. split; [by eapply ViewList_returns|].
    rewrite length_rows. unfold usedData. rewrite Hdef, Hdata.
    apply Hlen.
Qed.

(** ** The pass that has no primary field *)

(** C2, where the component fails: with no field at all and a primary field
    id configured, the pass does not return a list without primary labels;
    it throws a [TypeError] at line 33, before anything is rendered. *)
Theorem ViewList_throws_on_missing_primary_field :
  fields (heap fieldless_state) = [] ∧
  ViewList 13 32 (AsyncList.useAsyncList 1) sample_props fieldless_state =
    (Threw (JS.TypeError
              "Cannot read properties of undefined (reading 'formats')"),
     fieldless_state).
Proof. split; [done|]. apply ViewList_without_primary. by inversion 1. Qed.

(** ** A pass is not without side effect *)

(** C7, as it is worded, fails: the pass over the sample fields does not
    leave the state as it found it (the title field has lost its link
    format). *)
Lemma render_pass_mutates_primary_field :
  ¬ leaves_state_unchanged 13 32 (AsyncList.useAsyncList 1)
      sample_props sample_state.
Proof.
  unfold leaves_state_unchanged. intros Heq.
  apply (f_equal (λ st, Field.formats <$> fields (heap st))) in Heq.
  vm_compute in Heq. discriminate Heq.
Qed.

(** ** The properties at the sample inputs *)

Lemma click_selects_exactly_the_item_witness :
  ∃ rendered st' row,
    ViewList 13 32 (AsyncList.useAsyncList 1) sample_props sample_state
      = (Returned rendered, st') ∧
    rendered !! 2 = Some row ∧
    onClick row sample_state =
      (Returned (),
       {| heap := select [sample_item 3] (heap sample_state);
          trace := [[sample_item 3]] |}).
Proof.
  assert (primary_formats sample_props (heap sample_state)
          = Some [Format.mk "link" [("href", JS.Str "/post")];
                  Format.mk "bold" []]) as Hpf by reflexivity.
  destruct (click_selects_exactly_the_item 13 32 (AsyncList.useAsyncList 1)
              sample_props sample_state _ Hpf)
    as (rendered & st' & Hrun & Hrows).
  assert (usedData (AsyncList.useAsyncList 1) sample_props (heap sample_state)
            !! 2 = Some (sample_item 3)) as HX by reflexivity.
  destruct (Hrows 2 (sample_item 3) HX) as (row & Hrow & Hclick).
  exists rendered, st', row.
  split; [exact Hrun|]. split; [exact Hrow|]. apply Hclick.
Defined.

Lemma keydown_enter_or_space_selects_witness :
  ∃ rendered st' row,
    ViewList 13 32 (AsyncList.useAsyncList 1) sample_props sample_state
      = (Returned rendered, st') ∧
    rendered !! 2 = Some row ∧
    onKeyDown row (mkKeyboardEvent 32) sample_state
      = onClick row sample_state ∧
    trace (onKeyDown row (mkKeyboardEvent 13) sample_state).2
      = [[sample_item 3]] ∧
    onKeyDown row (mkKeyboardEvent 9) sample_state
      = (Returned (), sample_state).
Proof.
  assert (primary_formats sample_props (heap sample_state)
          = Some [Format.mk "link" [("href", JS.Str "/post")];
                  Format.mk "bold" []]) as Hpf by reflexivity.
  destruct (keydown_enter_or_space_selects 13 32 (AsyncList.useAsyncList 1)
              sample_props sample_state _ Hpf)
    as (rendered & st' & Hrun & Hrows).
  assert (usedData (AsyncList.useAsyncList 1) sample_props (heap sample_state)
            !! 2 = Some (sample_item 3)) as HX by reflexivity.
  destruct (Hrows 2 (sample_item 3) HX) as (row & Hrow & Hkeys).
  exists rendered, st', row.
  split; [exact Hrun|]. split; [exact Hrow|]. split; [|split].
  - apply (Hkeys (mkKeyboardEvent 32)). right. reflexivity.
  - apply (Hkeys (mkKeyboardEvent 13) sample_state). left. reflexivity.
  - apply (Hkeys (mkKeyboardEvent 9)); simpl; lia.
Defined.

Lemma visibleFields_are_the_remaining_fields_witness :
  Field.id <$> visibleFields_spec sample_view sample_fields
    = ["author"; "date"] ∧
  ∃ rendered st' row,
    ViewList 13 32 (AsyncList.useAsyncList 1) sample_props sample_state
      = (Returned rendered, st') ∧
    rendered !! 0 = Some row ∧
    fieldSpans row =
      (λ field, (Field.id field, Field.render field (sample_item 1)))
        <$> visibleFields_spec sample_view sample_fields.
Proof.
  split; [reflexivity|].
  destruct (visibleFields_are_the_remaining_fields 13 32
              (AsyncList.useAsyncList 1) sample_view sample_fields)
    as (_ & _ & _ & Hpass).
  assert (primary_formats sample_props (heap sample_state)
          = Some [Format.mk "link" [("href", JS.Str "/post")];
                  Format.mk "bold" []]) as Hpf by reflexivity.
  destruct (Hpass sample_props sample_state _ eq_refl eq_refl Hpf)
    as (rendered & st' & Hrun & Hrows).
  assert (usedData (AsyncList.useAsyncList 1) sample_props (heap sample_state)
            !! 0 = Some (sample_item 1)) as HX by reflexivity.
  destruct (Hrows 0 (sample_item 1) HX) as (row & Hrow & Hspans).
  exists rendered, st', row.
  split; [exact Hrun|]. split; [exact Hrow|]. exact Hspans.
Defined.

Lemma primary_formats_have_no_link_witness :
  ∃ rendered st' field',
    ViewList 13 32 (AsyncList.useAsyncList 1) sample_props sample_state
      = (Returned rendered, st') ∧
    fields (heap st') !! 1 = Some field' ∧
    Field.id field' = "title" ∧
    Field.formats field' = Some [Format.mk "bold" []].
Proof.
  destruct (primary_formats_have_no_link 13 32 (AsyncList.useAsyncList 1)
              sample_props sample_state 1
              (Field.mk "title" (attribute "title")
                 (Some [Format.mk "link" [("href", JS.Str "/post")];
                        Format.mk "bold" []]))
              [Format.mk "link" [("href", JS.Str "/post")];
               Format.mk "bold" []])
    as (rendered & st' & field' & formats' & Hrun & _ & Hi & Hid & Hf & Heq
        & _);
    [reflexivity | reflexivity | reflexivity |].
  exists rendered, st', field'.
  split; [exact Hrun|]. split; [exact Hi|]. split; [exact Hid|].
  rewrite Hf, Heq. reflexivity.
Defined.

Lemma rendered_items_witness :
  (∃ rendered st',
     ViewList 13 32 (AsyncList.useAsyncList 1) sample_props long_state
       = (Returned rendered, st') ∧
     length rendered = 8) ∧
  (∃ rendered st',
     ViewList 13 32 (AsyncList.useAsyncList 1) deferred_props long_state
       = (Returned rendered, st') ∧
     length rendered = 3).
Proof.
  assert (primary_formats sample_props (heap long_state)
          = Some [Format.mk "link" [("href", JS.Str "/post")];
                  Format.mk "bold" []]) as Hpf by reflexivity.
  split.
  - destruct (rendered_items 13 32 (AsyncList.useAsyncList 1)
                sample_props long_state _ Hpf)
      as (rendered & st' & Hrun & Hfull & _).
    exists rendered, st'. split; [exact Hrun|].
    destruct Hfull as [_ Hlen]; [reflexivity|]. exact Hlen.
  - destruct (rendered_items 13 32 (AsyncList.useAsyncList 1)
                deferred_props long_state _ Hpf)
      as (rendered & st' & Hrun & _ & Hshown).
    exists rendered, st'. split; [exact Hrun|].
    destruct Hshown as [_ Hlen]; [reflexivity|]. exact Hlen.
Defined.

Lemma render_pass_frame_witness :
  let result :=
    ViewList 13 32 (AsyncList.useAsyncList 1) sample_props sample_state in
  data (heap result.2) = sample_data ∧
  selection (heap result.2) = [JS.Num 2] ∧
  trace result.2 = [] ∧
  ∀ j, fields (heap result.2) !! j ≠ sample_fields !! j → j = 1.
Proof.
  destruct (render_pass_frame 13 32 (AsyncList.useAsyncList 1)
              sample_props sample_state)
    as (Hdata & Hsel & Htrace & _ & Hfields & _).
  split; [exact Hdata|]. split; [exact Hsel|]. split; [exact Htrace|].
  intros j Hj. destruct (Hfields j Hj) as [Hp _].
  assert (primaryField sample_props (heap sample_state) = Some 1) as H1
    by reflexivity.
  rewrite H1 in Hp. injection Hp as Hp. symmetry. exact Hp.
Defined.

Lemma pressed_iff_selected_witness :
  ∃ rendered st' second third,
    ViewList 13 32 (AsyncList.useAsyncList 1) sample_props sample_state
      = (Returned rendered, st') ∧
    rendered !! 1 = Some second ∧ rendered !! 2 = Some third ∧
    ariaPressed second = true ∧ ariaPressed third ≠ true.
Proof.
  assert (primary_formats sample_props (heap sample_state)
          = Some [Format.mk "link" [("href", JS.Str "/post")];
                  Format.mk "bold" []]) as Hpf by reflexivity.
  destruct (pressed_iff_selected 13 32 (AsyncList.useAsyncList 1)
              sample_props sample_state _ Hpf)
    as [(rendered & st' & Hrun & Hrows) _].
  assert (usedData (AsyncList.useAsyncList 1) sample_props (heap sample_state)
            !! 1 = Some (sample_item 2)) as H2 by reflexivity.
  assert (usedData (AsyncList.useAsyncList 1) sample_props (heap sample_state)
            !! 2 = Some (sample_item 3)) as H3 by reflexivity.
  destruct (Hrows 1 (sample_item 2) H2) as (second & Hsecond & Hp2 & _).
  destruct (Hrows 2 (sample_item 3) H3) as (third & Hthird & Hp3 & _).
  exists rendered, st', second, third.
  split; [exact Hrun|]. split; [exact Hsecond|]. split; [exact Hthird|].
  split.
  - apply Hp2. simpl. apply list_elem_of_here.
  - intros Hpressed. apply Hp3 in Hpressed. simpl in Hpressed.
    apply list_elem_of_singleton in Hpressed. discriminate Hpressed.
Defined.

Lemma reveal_is_a_growing_prefix_witness :
  length (AsyncList.useAsyncList 2 long_data (AsyncListConfig.mk 3)) = 6 ∧
  AsyncList.useAsyncList 3 long_data (AsyncListConfig.mk 3) = long_data ∧
  ∃ rendered st',
    ViewList 13 32 (AsyncList.useAsyncList 2) deferred_props long_state
      = (Returned rendered, st') ∧
    length rendered = 6.
Proof.
  pose proof (reveal_is_a_growing_prefix long_data) as Hreveal.
  cbv zeta in Hreveal.
  destruct Hreveal as (Hlen & _ & _ & _ & Hfinal & _ & Hpass).
  split; [exact (Hlen 2)|]. split.
  - apply Hfinal. vm_compute. lia.
  - assert (primary_formats deferred_props (heap long_state)
            = Some [Format.mk "link" [("href", JS.Str "/post")];
                    Format.mk "bold" []]) as Hpf by reflexivity.
    exact (Hpass 13%Z 32%Z deferred_props long_state _ 2 eq_refl eq_refl Hpf).
Defined.

Lemma key_falls_back_to_index_witness :
  ∃ rendered st' first second third,
    ViewList 13 32 (AsyncList.useAsyncList 1) keyed_props falsy_state
      = (Returned rendered, st') ∧
    rendered !! 0 = Some first ∧ rendered !! 1 = Some second ∧
    rendered !! 2 = Some third ∧
    key first = JS.Num 5 ∧ key second = JS.Num 1 ∧ key third = JS.Num 2.
Proof.
  assert (primary_formats keyed_props (heap falsy_state)
          = Some [Format.mk "link" [("href", JS.Str "/post")];
                  Format.mk "bold" []]) as Hpf by reflexivity.
  destruct (key_falls_back_to_index 13 32 (AsyncList.useAsyncList 1)
              keyed_props falsy_state _ Hpf)
    as (rendered & st' & Hrun & Hrows).
  destruct (Hrows 0 (sample_item 5)) as (first & H0 & _ & _ & _ & Htruthy);
    [reflexivity|].
  destruct (Hrows 1 (sample_item 0)) as (second & H1 & _ & Hfalsy & _);
    [reflexivity|].
  destruct (Hrows 2 (Item.mk (JS.Str "") []))
    as (third & H2 & _ & _ & Hempty & _);
    [reflexivity|].
  exists rendered, st', first, second, third.
  split; [exact Hrun|]. split; [exact H0|]. split; [exact H1|].
  split; [exact H2|]. split; [|split].
  - apply (Htruthy Item.id); reflexivity.
  - apply (Hfalsy Item.id); reflexivity.
  - apply (Hempty Item.id); [reflexivity|]. right. reflexivity.
Defined.

(** * Properties of the post edit form *)

(** ** The ids of a [postId] *)

Lemma split_not_nil (c : ascii) (s : string) : PostEdit.split c s ≠ [].
Proof.
  destruct s as [|c' rest]; simpl; [done|].
  destruct (Ascii.eqb c' c); [done|].
  by destruct (PostEdit.split c rest).
Qed.

Lemma concat_cons_cons (sep x y : string) (l : list string) :
  String.concat sep (x :: y :: l)
  = (x +:+ sep +:+ String.concat sep (y :: l))%string.
Proof. done. Qed.

Lemma concat_split (c : ascii) (s : string) :
  String.concat (String c "") (PostEdit.split c s) = s.
Proof.
  induction s as [|c' rest IH]; simpl; [done|].
  pose proof (split_not_nil c rest) as Hnil.
  destruct (PostEdit.split c rest) as [|piece pieces] eqn:E; [done|].
  destruct (Ascii.eqb_spec c' c) as [->|Hne].
  - rewrite concat_cons_cons, IH. done.
  - destruct pieces as [|next pieces].
    + simpl in *. by rewrite IH.
    + rewrite concat_cons_cons in IH. rewrite concat_cons_cons.
      rewrite <- IH. reflexivity.
Qed.

Lemma length_split (c : ascii) (s : string) :
  length (PostEdit.split c s) = S (PostEdit.count c s).
Proof.
  induction s as [|c' rest IH]; simpl; [done|].
  pose proof (split_not_nil c rest) as Hnil.
  destruct (Ascii.eqb c' c); simpl; [by rewrite IH|].
  destruct (PostEdit.split c rest); simpl in *; [done|lia].
Qed.

Lemma split_pieces (c : ascii) (s piece : string) :
  piece ∈ PostEdit.split c s → PostEdit.count c piece = 0.
Proof.
  revert piece. induction s as [|c' rest IH]; intros piece; simpl.
  - by intros ->%list_elem_of_singleton.
  - pose proof (split_not_nil c rest) as Hnil.
    destruct (Ascii.eqb c' c) eqn:Heq.
    + intros [->|Hin]%elem_of_cons; [done|]. by apply IH.
    + destruct (PostEdit.split c rest) as [|first pieces]; [done|].
      intros [->|Hin]%elem_of_cons.
      * simpl. rewrite Heq. simpl. apply IH. left.
      * apply IH. by right.
Qed.

Lemma split_without_separator (c : ascii) (s : string) :
  PostEdit.count c s = 0 → PostEdit.split c s = [s].
Proof.
  induction s as [|c' rest IH]; simpl; [done|].
  destruct (Ascii.eqb c' c); simpl; [done|].
  intros Hcount. by rewrite IH.
Qed.

(** X8: The ids are the pieces of [postId] between its commas: there is one more
    of them than there are commas, so there is always one and there is
    exactly one when [postId] has no comma; none of them contains a comma;
    joined by commas they give [postId] back. *)
Theorem ids_of_postId (postId : string) :
  String.concat "," (PostEdit.ids postId) = postId ∧
  length (PostEdit.ids postId) = S (PostEdit.count "," postId) ∧
  (∀ id, id ∈ PostEdit.ids postId → PostEdit.count "," id = 0) ∧
  (PostEdit.count "," postId = 0 → PostEdit.ids postId = [postId]).
Proof.
  unfold PostEdit.ids. split_and!.
  - apply concat_split.
  - apply length_split.
  - intros id. apply split_pieces.
  - apply split_without_separator.
Qed.

(** ** The form *)

(** X9: The form is a panel.  For a single post it has all nine entries; for
    several posts it keeps the four entries that are the strings title,
    author, date and comment_status: the entry of the status is an object,
    which [includes] does not find among the ids with bulk edit support. *)
Theorem form_fields_of_bulk_edit (__ : string → string) (postId : string) :
  let form := PostEdit.form __ (PostEdit.ids postId) in
  PostEdit.Form.type form = "panel" ∧
  (PostEdit.count "," postId = 0 →
   PostEdit.Form.fields form = PostEdit.formFields __) ∧
  (PostEdit.count "," postId ≠ 0 →
   PostEdit.Form.fields form =
     [PostEdit.FormField.Id "title"; PostEdit.FormField.Id "author";
      PostEdit.FormField.Id "date";
      PostEdit.FormField.Id "comment_status"]).
Proof.
  simpl. split; [done|].
  pose proof (length_split "," postId) as Hlen.
  fold (PostEdit.ids postId) in Hlen.
  split; intros Hcount.
  - rewrite (list_filter_iff _ (λ _, True)); [done|].
    intros field. rewrite Hlen, Hcount. tauto.
  - rewrite (list_filter_iff _
               (λ field, PostEdit.supportsBulkEdit field = true)); [done|].
    intros field. rewrite Hlen. split; [|tauto].
    intros [Hone|Hbulk]; [lia|done].
Qed.

Section PostEditProperties.

Context (__ : string → string)
  (getEditedEntityRecord : string → string → string → Obj.ref)
  (getEntityRecords : string → string → option (list PostEdit.Template.t))
  (usePostFields : string → option (list PostEdit.PostField.t))
  (isAfterNow : JS.value → bool).

Local Abbreviation PostEditForm :=
  (PostEdit.PostEditForm __ getEditedEntityRecord getEntityRecords
     usePostFields isAfterNow).
Local Abbreviation onChange := (PostEdit.onChange isAfterNow).
Local Abbreviation onChange_body := (PostEdit.onChange_body isAfterNow).
Local Abbreviation adjusted := (PostEdit.adjusted isAfterNow).

(** ** The fields *)

(** What line 92-97 make of a field whose elements are there. *)
Lemma withoutTrash_Returned (field : PostEdit.PostField.t) :
  (PostEdit.PostField.id field = "status" →
   is_Some (PostEdit.PostField.elements field)) →
  PostEdit.withoutTrash field =
    Returned
      (if decide (PostEdit.PostField.id field = "status") then
         {| PostEdit.PostField.id := PostEdit.PostField.id field;
            PostEdit.PostField.elements :=
              filter PostEdit.not_trash
                <$> PostEdit.PostField.elements field;
            PostEdit.PostField.Edit := PostEdit.PostField.Edit field |}
       else field).
Proof.
  intros Hel. unfold PostEdit.withoutTrash.
  destruct (decide (PostEdit.PostField.id field = "status")) as [Hs|]; [|done].
  by destruct (Hel Hs) as [elements ->].
Qed.

Lemma map_throwing_Returned {A B} (f : A → outcome B) (g : A → B)
    (l : list A) :
  (∀ x, x ∈ l → f x = Returned (g x)) →
  PostEdit.map_throwing f l = Returned (g <$> l).
Proof.
  induction l as [|x l IH]; intros Hf; simpl; [done|].
  rewrite (Hf x) by left. rewrite IH; [done|].
  intros y Hy. apply Hf. by right.
Qed.

Lemma map_throwing_Threw {A B} (f : A → outcome B) (e : JS.error)
    (l : list A) (x : A) :
  x ∈ l → f x = Threw e →
  (∀ y e', f y = Threw e' → e' = e) →
  PostEdit.map_throwing f l = Threw e.
Proof.
  intros Hx Hfx Hsame.
  induction l as [|y l IH]; [by inversion Hx|]. simpl.
  destruct (f y) as [z|e'] eqn:Hfy.
  - apply elem_of_cons in Hx as [->|Hx]; [congruence|].
    by rewrite IH.
  - f_equal. by eapply Hsame.
Qed.

(** X10: Without fields ([usePostFields] gives [undefined]) the form throws
    where line 181 calls [map], although line 90 lets the missing fields
    pass. *)
Theorem PostEditForm_throws_without_fields postType postId multiEdits :
  usePostFields postType = None →
  PostEditForm postType postId multiEdits =
    Threw (JS.TypeError
             "Cannot read properties of undefined (reading 'map')").
Proof. intros Hnone. unfold PostEdit.PostEditForm. by rewrite Hnone. Qed.

(** X11: A status field without elements makes the form throw where line 94
    calls [filter]. *)
Theorem PostEditForm_throws_on_status_without_elements
    postType postId multiEdits fs field :
  usePostFields postType = Some fs →
  field ∈ fs →
  PostEdit.PostField.id field = "status" →
  PostEdit.PostField.elements field = None →
  PostEditForm postType postId multiEdits =
    Threw (JS.TypeError
             "Cannot read properties of undefined (reading 'filter')").
Proof.
  intros Hfs Hin Hid Hel. unfold PostEdit.PostEditForm. rewrite Hfs. simpl.
  rewrite (map_throwing_Threw _
             (JS.TypeError
                "Cannot read properties of undefined (reading 'filter')")
             _ field Hin); [done| |].
  - unfold PostEdit.withoutTrash. by rewrite decide_True, Hel.
  - intros y e'. unfold PostEdit.withoutTrash.
    destruct (decide _); [|done].
    destruct (PostEdit.PostField.elements y); [done|]. by intros [= <-].
Qed.

(** X12: What a form that is rendered passes on of the fields: as many fields,
    with the same ids in the same order; the status field without the
    elements of value trash; the template field with an [Edit] that renders
    the field's own [Edit] with the templates added to its props; elements
    and [Edit] as they were everywhere else. *)
Theorem PostEditForm_fields postType postId multiEdits fs :
  usePostFields postType = Some fs →
  (∀ field, field ∈ fs → PostEdit.PostField.id field = "status" →
     is_Some (PostEdit.PostField.elements field)) →
  ∃ view,
    PostEditForm postType postId multiEdits = Returned view ∧
    length (PostEdit.viewFields view) = length fs ∧
    ∀ i field,
      fs !! i = Some field →
      ∃ field',
        PostEdit.viewFields view !! i = Some field' ∧
        PostEdit.PostField.id field' = PostEdit.PostField.id field ∧
        (PostEdit.PostField.id field = "status" →
         PostEdit.PostField.elements field' =
           filter PostEdit.not_trash <$> PostEdit.PostField.elements field ∧
         ∀ elements element,
           PostEdit.PostField.elements field' = Some elements →
           element ∈ elements →
           PostEdit.Element.value element ≠ JS.Str "trash") ∧
        (PostEdit.PostField.id field ≠ "status" →
         PostEdit.PostField.elements field' =
           PostEdit.PostField.elements field) ∧
        (PostEdit.PostField.id field = "template" →
         ∀ data,
           PostEdit.PostField.Edit field' data =
             PostEdit.PostField.Edit field
               {| PostEdit.EditProps.props := PostEdit.EditProps.props data;
                  PostEdit.EditProps.templates :=
                    Some (PostEdit.useTemplates
                            (getEntityRecords "postType" "wp_template")) |}) ∧
        (PostEdit.PostField.id field ≠ "template" →
         PostEdit.PostField.Edit field' = PostEdit.PostField.Edit field).
Proof.
  intros Hfs Hel. unfold PostEdit.PostEditForm. rewrite Hfs. simpl.
  erewrite map_throwing_Returned;
    [|intros field Hin; apply withoutTrash_Returned; by apply Hel].
  simpl. eexists. split; [done|]. simpl.
  split; [by rewrite !length_fmap|].
  intros i field Hi. rewrite !list_lookup_fmap, Hi. simpl.
  eexists. split; [done|].
  destruct (decide (PostEdit.PostField.id field = "status")) as [Hs|Hs]; simpl.
  - rewrite Hs. simpl. split_and!; try done.
    intros _. split; [done|].
    intros elements element Hsome Hin.
    destruct (PostEdit.PostField.elements field) as [es|]; simplify_eq/=.
    by apply list_elem_of_filter in Hin as [Hnt _].
  - destruct (decide (PostEdit.PostField.id field = "template")); simpl;
      split_and!; done.
Qed.

(** X13: What a form that is rendered shows for one post and for several: the
    post card and the edited record of the post when [postId] has no comma;
    no post card and the edits made so far when it has. *)
Theorem PostEditForm_single_or_bulk postType postId multiEdits fs :
  usePostFields postType = Some fs →
  (∀ field, field ∈ fs → PostEdit.PostField.id field = "status" →
     is_Some (PostEdit.PostField.elements field)) →
  ∃ view,
    PostEditForm postType postId multiEdits = Returned view ∧
    PostEdit.viewForm view = PostEdit.form __ (PostEdit.ids postId) ∧
    (PostEdit.count "," postId = 0 →
     PostEdit.postCardPanel view = Some (postType, postId) ∧
     PostEdit.data view
       = getEditedEntityRecord "postType" postType postId) ∧
    (PostEdit.count "," postId ≠ 0 →
     PostEdit.postCardPanel view = None ∧
     PostEdit.data view = Obj.Object multiEdits).
Proof.
  intros Hfs Hel. unfold PostEdit.PostEditForm. rewrite Hfs. simpl.
  erewrite map_throwing_Returned;
    [|intros field Hin; apply withoutTrash_Returned; by apply Hel].
  simpl. eexists. split; [done|]. simpl. split; [done|].
  pose proof (length_split "," postId) as Hlen.
  fold (PostEdit.ids postId) in Hlen.
  split; intros Hcount.
  - unfold PostEdit.ids, PostEdit.record.
    rewrite (split_without_separator "," postId Hcount). done.
  - rewrite !decide_False by lia. split; [done|]. done.
Qed.

(** ** The changes *)

Lemma get_insert_ne (o : Obj.t) (k k' : string) (v : JS.value) :
  k ≠ k' → Obj.get (<[k := v]> o) k' = Obj.get o k'.
Proof. intros Hne. unfold Obj.get. by rewrite lookup_insert_ne. Qed.

Lemma adjusted_status record edits :
  Obj.get (adjusted record edits) "status" = Obj.get edits "status".
Proof.
  unfold PostEdit.adjusted.
  repeat (match goal with |- context [if ?b then _ else _] => destruct b end);
    rewrite ?get_insert_ne; done.
Qed.

Lemma adjusted_lookup record edits key :
  key ≠ "date" → key ≠ "password" →
  adjusted record edits !! key = edits !! key.
Proof.
  intros Hd Hp. unfold PostEdit.adjusted.
  repeat (match goal with |- context [if ?b then _ else _] => destruct b end);
    rewrite ?lookup_insert_ne; done.
Qed.

Lemma adjusted_idemp record edits :
  adjusted record (adjusted record edits) = adjusted record edits.
Proof.
  unfold PostEdit.adjusted at 1. rewrite adjusted_status.
  unfold PostEdit.adjusted.
  repeat (match goal with |- context [if ?b then _ else _] => destruct b end);
    apply map_eq; intros key; rewrite ?lookup_insert;
    repeat case_decide; done.
Qed.

Lemma throws_adjusted record edits :
  PostEdit.throws record (adjusted record edits)
  ↔ PostEdit.throws record edits.
Proof. unfold PostEdit.throws. by rewrite adjusted_status. Qed.

(** A turn of the loop that does not throw. *)
Lemma onChange_body_returns postType ids record id s :
  ¬ PostEdit.throws record (PostEdit.edits s) →
  onChange_body postType ids record id s =
    (Returned (),
     {| PostEdit.edits := adjusted record (PostEdit.edits s);
        PostEdit.multiEdits :=
          if decide (1 < length ids)
          then adjusted record (PostEdit.edits s) ∪ PostEdit.multiEdits s
          else PostEdit.multiEdits s;
        PostEdit.dispatched :=
          PostEdit.dispatched s ++
            [PostEdit.mkEditCall "postType" postType id
               (adjusted record (PostEdit.edits s))] |}).
Proof.
  intros Hsafe. unfold PostEdit.onChange_body, PostEdit.adjusted.
  destruct s as [e m d]. simpl in *.
  set (status := Obj.get e "status") in *.
  destruct (JS.truthy status && negb (bool_decide (status = JS.Str "future"))
            && bool_decide (Obj.read_optional record "status"
                            = JS.Str "future")
            && isAfterNow (Obj.read_optional record "date")); simpl;
    rewrite ?get_insert_ne by done; fold status;
    (destruct (bool_decide_reflect (status = JS.Str "private")) as [Hp|Hp];
     [rewrite Hp; simpl|rewrite andb_false_r; simpl; by destruct (decide _)]);
    (destruct record as [[]|o]; simpl;
     try (exfalso; apply Hsafe; split; [done|auto]; fail);
     try (by destruct (decide _));
     destruct (JS.truthy (Obj.get o "password")); simpl;
     by destruct (decide _)).
Qed.

(** A turn of the loop that throws: the record is [null] and the status
    becomes private. *)
Lemma onChange_body_throws postType ids id s :
  Obj.get (PostEdit.edits s) "status" = JS.Str "private" →
  onChange_body postType ids (Obj.Prim JS.Null) id s =
    (Threw (JS.TypeError
              "Cannot read properties of null (reading 'password')"),
     s).
Proof.
  intros Hp. unfold PostEdit.onChange_body. simpl.
  rewrite andb_false_r. simpl. by rewrite Hp.
Qed.

Lemma onChange_loop postType ids record l s :
  l ≠ [] →
  ¬ PostEdit.throws record (PostEdit.edits s) →
  PostEdit.for_of l (onChange_body postType ids record) s =
    (Returned (),
     {| PostEdit.edits := adjusted record (PostEdit.edits s);
        PostEdit.multiEdits :=
          if decide (1 < length ids)
          then adjusted record (PostEdit.edits s) ∪ PostEdit.multiEdits s
          else PostEdit.multiEdits s;
        PostEdit.dispatched :=
          PostEdit.dispatched s ++
            ((λ id, PostEdit.mkEditCall "postType" postType id
                      (adjusted record (PostEdit.edits s))) <$> l) |}).
Proof.
  revert s. induction l as [|id l IH]; intros s Hnil Hsafe; [done|].
  simpl. rewrite onChange_body_returns by done.
  destruct l as [|id' l]; [done|].
  rewrite IH; [|done|simpl; by rewrite throws_adjusted]. simpl.
  rewrite adjusted_idemp. f_equal. f_equal.
  - destruct (decide (1 < length ids)); [|done].
    by rewrite (assoc_L (∪)), (idemp_L (∪)).
  - by rewrite <- app_assoc.
Qed.

(** What [onChange] comes to when it does not throw. *)
Lemma onChange_run postType ids record edits multiEdits dispatched :
  ¬ PostEdit.throws record edits →
  let edits' := if decide (ids = []) then edits else adjusted record edits in
  onChange postType ids record edits multiEdits dispatched =
    (Returned (),
     {| PostEdit.edits := edits';
        PostEdit.multiEdits :=
          if decide (1 < length ids) then edits' ∪ multiEdits
          else multiEdits;
        PostEdit.dispatched :=
          dispatched ++
            ((λ id, PostEdit.mkEditCall "postType" postType id edits')
               <$> ids) |}).
Proof.
  intros Hsafe. simpl. unfold PostEdit.onChange.
  destruct (decide (ids = [])) as [->|Hnil].
  - simpl. by rewrite app_nil_r.
  - by rewrite onChange_loop.
Qed.

(** X14: Unless the status becomes private while the record is [null] or
    [undefined], [onChange] returns, having called [editEntityRecord] once
    for every id, in the order of the ids and each time with the edits as it
    leaves them; it merges these edits over [multiEdits] when there are
    several ids and leaves [multiEdits] alone otherwise; of the edits it
    changes no property but date and password. *)
Theorem onChange_edits_every_record
    postType ids record edits multiEdits dispatched :
  (Obj.get edits "status" = JS.Str "private" →
   record ≠ Obj.Prim JS.Null ∧ record ≠ Obj.Prim JS.Undefined) →
  ∃ s',
    onChange postType ids record edits multiEdits dispatched
      = (Returned (), s') ∧
    PostEdit.dispatched s' =
      dispatched ++
        ((λ id,
            PostEdit.mkEditCall "postType" postType id (PostEdit.edits s'))
           <$> ids) ∧
    PostEdit.multiEdits s' =
      (if decide (1 < length ids) then PostEdit.edits s' ∪ multiEdits
       else multiEdits) ∧
    ∀ key, key ≠ "date" → key ≠ "password" →
      PostEdit.edits s' !! key = edits !! key.
Proof.
  intros Hsafe.
  assert (¬ PostEdit.throws record edits) as Hnot.
  { intros [Hp Hrec]. destruct (Hsafe Hp). by destruct Hrec. }
  eexists. split; [by apply onChange_run|]. simpl.
  split_and!; try done.
  intros key Hd Hp. destruct (decide (ids = [])); [done|].
  by apply adjusted_lookup.
Qed.

(** X15: When the status is changed to something other than future on a record
    that is scheduled (its status is future and its date is yet to come),
    the edits that [onChange] passes on carry the date [null]; otherwise
    [onChange] leaves the date of the edits as it is. *)
Theorem onChange_resets_future_date
    postType ids record edits multiEdits dispatched :
  ids ≠ [] →
  (Obj.get edits "status" = JS.Str "private" →
   record ≠ Obj.Prim JS.Null ∧ record ≠ Obj.Prim JS.Undefined) →
  ∃ s',
    onChange postType ids record edits multiEdits dispatched
      = (Returned (), s') ∧
    (JS.truthy (Obj.get edits "status") = true →
     Obj.get edits "status" ≠ JS.Str "future" →
     Obj.read_optional record "status" = JS.Str "future" →
     isAfterNow (Obj.read_optional record "date") = true →
     PostEdit.edits s' !! "date" = Some JS.Null) ∧
    (JS.truthy (Obj.get edits "status") = false ∨
     Obj.get edits "status" = JS.Str "future" ∨
     Obj.read_optional record "status" ≠ JS.Str "future" ∨
     isAfterNow (Obj.read_optional record "date") = false →
     PostEdit.edits s' !! "date" = edits !! "date").
Proof.
  intros Hnil Hsafe.
  assert (¬ PostEdit.throws record edits) as Hnot.
  { intros [Hp Hrec]. destruct (Hsafe Hp). by destruct Hrec. }
  eexists. split; [by apply onChange_run|]. simpl.
  rewrite decide_False by done. unfold PostEdit.adjusted. split.
  - intros -> Hf -> ->. rewrite (bool_decide_false _ Hf).
    rewrite (bool_decide_true (JS.Str "future" = JS.Str "future")) by done.
    simpl.
    destruct (_ && _); rewrite ?lookup_insert_ne by done;
      by rewrite lookup_insert_eq.
  - intros Hno.
    assert (JS.truthy (Obj.get edits "status")
            && negb (bool_decide (Obj.get edits "status" = JS.Str "future"))
            && bool_decide (Obj.read_optional record "status"
                            = JS.Str "future")
            && isAfterNow (Obj.read_optional record "date") = false) as ->.
    { destruct Hno as [->|[->|[Hne| ->]]]; [done| | |].
      - by rewrite bool_decide_true, andb_false_r.
      - by rewrite (bool_decide_false _ Hne), andb_false_r.
      - by rewrite andb_false_r. }
    destruct (_ && _); [by rewrite lookup_insert_ne|done].
Qed.

(** X16: When the status is changed to private on a record that has a password,
    the edits that [onChange] passes on carry the empty password; otherwise
    [onChange] leaves the password of the edits as it is. *)
Theorem onChange_clears_password
    postType ids record edits multiEdits dispatched :
  ids ≠ [] →
  (Obj.get edits "status" = JS.Str "private" →
   record ≠ Obj.Prim JS.Null ∧ record ≠ Obj.Prim JS.Undefined) →
  ∃ s',
    onChange postType ids record edits multiEdits dispatched
      = (Returned (), s') ∧
    (Obj.get edits "status" = JS.Str "private" →
     JS.truthy (Obj.read_optional record "password") = true →
     PostEdit.edits s' !! "password" = Some (JS.Str "")) ∧
    (Obj.get edits "status" ≠ JS.Str "private" ∨
     JS.truthy (Obj.read_optional record "password") = false →
     PostEdit.edits s' !! "password" = edits !! "password").
Proof.
  intros Hnil Hsafe.
  assert (¬ PostEdit.throws record edits) as Hnot.
  { intros [Hp Hrec]. destruct (Hsafe Hp). by destruct Hrec. }
  eexists. split; [by apply onChange_run|]. simpl.
  rewrite decide_False by done. unfold PostEdit.adjusted. split.
  - intros Hp ->. rewrite (bool_decide_true _ Hp). simpl.
    by rewrite lookup_insert_eq.
  - intros Hno.
    assert (bool_decide (Obj.get edits "status" = JS.Str "private")
            && JS.truthy (Obj.read_optional record "password") = false) as ->.
    { destruct Hno as [Hne| ->]; [by rewrite (bool_decide_false _ Hne)|].
      by rewrite andb_false_r. }
    destruct (_ && _); [by rewrite lookup_insert_ne|done].
Qed.

(** X17: In the form for several posts, a change that makes the status private
    throws where line 156 reads the password of the record, which is
    [null]: no record is edited and nothing else has changed. *)
Theorem bulk_private_edit_throws
    postType postId multiEdits view edits current dispatched :
  PostEdit.count "," postId ≠ 0 →
  PostEditForm postType postId multiEdits = Returned view →
  Obj.get edits "status" = JS.Str "private" →
  PostEdit.viewOnChange view edits current dispatched =
    (Threw (JS.TypeError
              "Cannot read properties of null (reading 'password')"),
     {| PostEdit.edits := edits; PostEdit.multiEdits := current;
        PostEdit.dispatched := dispatched |}).
Proof.
  intros Hcount Hview Hp. unfold PostEdit.PostEditForm in Hview.
  destruct (PostEdit.fields _) as [fields|]; [|done].
  destruct (PostEdit.fieldsWithDependency _ _); [|done].
  injection Hview as <-. simpl.
  pose proof (length_split "," postId) as Hlen.
  unfold PostEdit.ids, PostEdit.onChange, PostEdit.record.
  destruct (PostEdit.split "," postId) as [|id [|id' rest]];
    simpl in Hlen; [lia|lia|].
  simpl. by rewrite onChange_body_throws.
Qed.

End PostEditProperties.

Section PostEditPage.

Context (__ : string → string)
  (getEditedEntityRecord : string → string → string → Obj.ref)
  (getEntityRecords : string → string → option (list PostEdit.Template.t))
  (usePostFields : string → option (list PostEdit.PostField.t))
  (isAfterNow : JS.value → bool).

(** ** The templates and the page *)

(** X18: There is one option for each template, in the order of the templates,
    and none while the templates are not there; the value of an option is
    the id of its template and its label is the rendered title, or the slug
    when the template has no title or an empty one. *)
Theorem useTemplates_options (templates : option (list PostEdit.Template.t)) :
  (templates = None → PostEdit.useTemplates templates = []) ∧
  length (PostEdit.useTemplates templates) = length (default [] templates) ∧
  ∀ i template,
    default [] templates !! i = Some template →
    ∃ option,
      PostEdit.useTemplates templates !! i = Some option ∧
      PostEdit.TemplateOption.value option = PostEdit.Template.id template ∧
      (PostEdit.Template.title template = None →
       PostEdit.TemplateOption.label option
         = PostEdit.Template.slug template) ∧
      (∀ rendered,
         PostEdit.Template.title template = Some rendered →
         PostEdit.TemplateOption.label option =
           if JS.truthy rendered then rendered
           else PostEdit.Template.slug template).
Proof.
  split; [by intros ->|].
  destruct templates as [templates|]; simpl; [|done].
  split; [by rewrite length_fmap|].
  intros i template Hi. rewrite list_lookup_fmap, Hi. simpl.
  eexists. split; [done|]. simpl. split; [done|]. split.
  - by intros ->.
  - by intros rendered ->.
Qed.

(** X19: The page shows the form when there is a [postId] that is not empty, and
    the message to select a page, with the class is-empty, when there is
    none: never both, never neither. *)
Theorem PostEdit_form_or_message postType postId multiEdits :
  let page :=
    PostEdit.PostEdit __ getEditedEntityRecord getEntityRecords
      usePostFields isAfterNow postType postId multiEdits in
  (postId = None ∨ postId = Some "" →
   PostEdit.pageForm page = None ∧
   PostEdit.pageMessage page = Some (__ "Select a page to edit") ∧
   PostEdit.pageClassName page = "edit-site-post-edit is-empty") ∧
  (∀ id,
     postId = Some id → id ≠ "" →
     PostEdit.pageForm page =
       Some (PostEdit.PostEditForm __ getEditedEntityRecord getEntityRecords
               usePostFields isAfterNow postType id multiEdits) ∧
     PostEdit.pageMessage page = None ∧
     PostEdit.pageClassName page = "edit-site-post-edit").
Proof.
  simpl. split.
  - by intros [->| ->].
  - intros id -> Hid. unfold PostEdit.PostEdit.
    destruct (String.eqb_spec id ""); done.
Qed.

End PostEditPage.

(** * Properties of the list view sidebar *)

Section ListViewSidebarProperties.

Context (ESCAPE : Z)
  (tabbable : ListViewSidebar.Element → list ListViewSidebar.Element)
  (contains :
     ListViewSidebar.Element → option ListViewSidebar.Element → bool).

(** X20: The Escape key, unless its default action was prevented already,
    prevents the default action, closes the list view and then moves the
    focus to the toggle button when there is one; any other key, and an
    Escape that was handled elsewhere, does nothing at all. *)
Theorem closeOnEscape_closes_once toggle event :
  (ListViewSidebar.keyCode event = ESCAPE →
   ListViewSidebar.defaultPrevented event = false →
   ListViewSidebar.closeOnEscape ESCAPE toggle event =
     [ListViewSidebar.PreventDefault;
      ListViewSidebar.SetIsListViewOpened false]
     ++ match toggle with
        | Some element => [ListViewSidebar.Focus element]
        | None => []
        end) ∧
  (ListViewSidebar.keyCode event ≠ ESCAPE ∨
   ListViewSidebar.defaultPrevented event = true →
   ListViewSidebar.closeOnEscape ESCAPE toggle event = []).
Proof.
  unfold ListViewSidebar.closeOnEscape. split.
  - intros -> ->. by rewrite bool_decide_true.
  - intros [Hne| ->].
    + by rewrite (bool_decide_false _ Hne).
    + by rewrite andb_false_r.
Qed.

(** X21: The shortcut closes the list view when the focus is in the sidebar, and
    then it focuses nothing but the toggle button; when the focus is
    elsewhere it never closes the list view: it focuses one element, or
    throws having done nothing. *)
Theorem shortcut_closes_or_focuses toggle refs tab :
  let result :=
    ListViewSidebar.handleToggleListViewShortcut tabbable contains
      toggle refs tab in
  (contains (ListViewSidebar.sidebarRef refs)
     (ListViewSidebar.activeElement refs) = true →
   result = (Returned (), ListViewSidebar.closeListView toggle)) ∧
  (contains (ListViewSidebar.sidebarRef refs)
     (ListViewSidebar.activeElement refs) = false →
   (∃ element,
      result = (Returned (), [ListViewSidebar.Focus element]) ∧
      (element ∈ tabbable (ListViewSidebar.tabsRef refs) ∨
       element ∈ tabbable (ListViewSidebar.listViewRef refs))) ∨
   (∃ e, result = (Threw e, []))).
Proof.
  simpl. unfold ListViewSidebar.handleToggleListViewShortcut. split.
  - by intros ->.
  - intros ->. unfold ListViewSidebar.handleSidebarFocus.
    assert (∀ l : list ListViewSidebar.Element,
              (∃ element, ListViewSidebar.focus (head l)
                          = (Returned (), [ListViewSidebar.Focus element]) ∧
                          element ∈ l) ∨
              (∃ e, ListViewSidebar.focus (head l) = (Threw e, [])))
      as Hfocus.
    { intros [|element l]; simpl; [right; eauto|].
      left. exists element. split; [done|left]. }
    destruct (String.eqb tab "list-view").
    + destruct (contains _
                  (head (tabbable (ListViewSidebar.listViewRef refs)))).
      * destruct (Hfocus (tabbable (ListViewSidebar.listViewRef refs)))
          as [(element & -> & Hin)|[e ->]]; eauto 6.
      * destruct (Hfocus (tabbable (ListViewSidebar.tabsRef refs)))
          as [(element & -> & Hin)|[e ->]]; eauto 6.
    + destruct (Hfocus (tabbable (ListViewSidebar.tabsRef refs)))
        as [(element & -> & Hin)|[e ->]]; eauto 6.
Qed.

(** X22: Where the shortcut moves the focus from outside the sidebar, given
    a tab list with something to focus: on the list view tab to the first
    tabbable element of the list view when the sidebar contains it, and to
    the first tab otherwise, which is what happens when the list view has
    nothing to focus; on the other tab to the first tab. *)
Theorem handleSidebarFocus_target refs tab first tabs :
  tabbable (ListViewSidebar.tabsRef refs) = first :: tabs →
  contains (ListViewSidebar.sidebarRef refs) None = false →
  let result :=
    ListViewSidebar.handleSidebarFocus tabbable contains refs tab in
  (tab ≠ "list-view" →
   result = (Returned (), [ListViewSidebar.Focus first])) ∧
  (tab = "list-view" →
   tabbable (ListViewSidebar.listViewRef refs) = [] →
   result = (Returned (), [ListViewSidebar.Focus first])) ∧
  (∀ block blocks,
     tab = "list-view" →
     tabbable (ListViewSidebar.listViewRef refs) = block :: blocks →
     result =
       (Returned (),
        [ListViewSidebar.Focus
           (if contains (ListViewSidebar.sidebarRef refs) (Some block)
            then block else first)])).
Proof.
  intros Htabs Hnone. simpl. unfold ListViewSidebar.handleSidebarFocus.
  rewrite Htabs. simpl. split_and!.
  - intros Hne. by rewrite (proj2 (String.eqb_neq _ _) Hne).
  - intros -> ->. simpl. by rewrite Hnone.
  - intros block blocks -> ->. simpl.
    by destruct (contains _ (Some block)).
Qed.

(** X23: With a tab list that has nothing to focus, moving the focus to the
    outline tab throws, and nothing has been focused. *)
Theorem handleSidebarFocus_throws_without_tabs refs tab :
  tabbable (ListViewSidebar.tabsRef refs) = [] →
  tab ≠ "list-view" →
  ListViewSidebar.handleSidebarFocus tabbable contains refs tab =
    (Threw (JS.TypeError
              "Cannot read properties of undefined (reading 'focus')"),
     []).
Proof.
  intros Htabs Hne. unfold ListViewSidebar.handleSidebarFocus.
  by rewrite Htabs, (proj2 (String.eqb_neq _ _) Hne).
Qed.

End ListViewSidebarProperties.

(** * The properties at the sample inputs, continued *)

Lemma ViewList_throws_without_formats_witness :
  ViewList 13 32 (AsyncList.useAsyncList 1) sample_props bare_state =
    (Threw (JS.TypeError
              "Cannot read properties of undefined (reading 'filter')"),
     bare_state).
Proof.
  apply (ViewList_throws_without_formats 13 32 (AsyncList.useAsyncList 1)
           sample_props bare_state 0
           (Field.mk "title" (attribute "title") None));
    reflexivity.
Defined.

Lemma second_pass_changes_nothing_witness :
  ∃ rendered st' again,
    ViewList 13 32 (AsyncList.useAsyncList 1) sample_props sample_state
      = (Returned rendered, st') ∧
    ViewList 13 32 (AsyncList.useAsyncList 1) sample_props st'
      = (Returned again, st') ∧
    primary_formats sample_props (heap st') = Some [Format.mk "bold" []].
Proof.
  assert (primary_formats sample_props (heap sample_state)
          = Some [Format.mk "link" [("href", JS.Str "/post")];
                  Format.mk "bold" []]) as Hpf by reflexivity.
  destruct (second_pass_changes_nothing 13 32 (AsyncList.useAsyncList 1)
              sample_props sample_state _ Hpf)
    as (rendered & st' & again & Hfirst & Hsecond & Hformats).
  exists rendered, st', again.
  split; [exact Hfirst|]. split; [exact Hsecond|]. exact Hformats.
Defined.

Lemma media_cell_witness :
  ∃ rendered st' first second,
    ViewList 13 32 (AsyncList.useAsyncList 1) media_props media_state
      = (Returned rendered, st') ∧
    rendered !! 0 = Some first ∧ rendered !! 1 = Some second ∧
    media first = DText "Hello" ∧ media second = placeholder.
Proof.
  assert (primary_formats media_props (heap media_state)
          = Some [Format.mk "link" []]) as Hpf by reflexivity.
  destruct (media_cell 13 32 (AsyncList.useAsyncList 1)
              media_props media_state _ Hpf)
    as (rendered & st' & Hrun & Hrows).
  destruct (Hrows 0 (sample_item 1)) as (first & H0 & _ & Hfirst);
    [reflexivity|].
  destruct (Hrows 1 (Item.mk (JS.Num 2) [])) as (second & H1 & _ & Hsecond);
    [reflexivity|].
  exists rendered, st', first, second.
  split; [exact Hrun|]. split; [exact H0|]. split; [exact H1|]. split.
  - apply (Hfirst 0 (Field.mk "title" (attribute "title")
                       (Some [Format.mk "link" []]))); reflexivity.
  - apply (Hsecond 0 (Field.mk "title" (attribute "title")
                        (Some [Format.mk "link" []]))); reflexivity.
Defined.

Lemma keys_in_order_witness :
  ∃ rendered st',
    ViewList 13 32 (AsyncList.useAsyncList 1) sample_props sample_state
      = (Returned rendered, st') ∧
    key <$> rendered = [JS.Num 0; JS.Num 1; JS.Num 2].
Proof.
  assert (primary_formats sample_props (heap sample_state)
          = Some [Format.mk "link" [("href", JS.Str "/post")];
                  Format.mk "bold" []]) as Hpf by reflexivity.
  destruct (keys_in_order 13 32 (AsyncList.useAsyncList 1)
              sample_props sample_state _ Hpf)
    as (rendered & st' & Hrun & Habsent & _).
  exists rendered, st'. split; [exact Hrun|].
  destruct Habsent as [Hkeys _]; [reflexivity|]. exact Hkeys.
Defined.

Lemma keys_collide_witness :
  ∃ rendered st' first second,
    ViewList 13 32 (AsyncList.useAsyncList 1) keyed_props colliding_state
      = (Returned rendered, st') ∧
    rendered !! 0 = Some first ∧ rendered !! 1 = Some second ∧
    key first = key second.
Proof.
  apply (keys_collide 13 32 (AsyncList.useAsyncList 1) keyed_props
           colliding_state
           [Format.mk "link" [("href", JS.Str "/post")]; Format.mk "bold" []]
           Item.id 0 1 (sample_item 1) (sample_item 0));
    try reflexivity; lia.
Defined.

Lemma deferred_rows_are_a_prefix_witness :
  ∃ shown all st',
    ViewList 13 32 (AsyncList.useAsyncList 1)
      (set_deferredRendering true sample_props) long_state
      = (Returned shown, st') ∧
    ViewList 13 32 (AsyncList.useAsyncList 1)
      (set_deferredRendering false sample_props) long_state
      = (Returned all, st') ∧
    shown `prefix_of` all.
Proof.
  apply (deferred_rows_are_a_prefix 13 32 (AsyncList.useAsyncList 1)
           sample_props long_state
           [Format.mk "link" [("href", JS.Str "/post")];
            Format.mk "bold" []]).
  - reflexivity.
  - exists (drop 3 long_data). reflexivity.
Defined.

Lemma ids_of_postId_witness :
  String.concat "," (PostEdit.ids "12,7") = "12,7" ∧
  length (PostEdit.ids "12,7") = 2 ∧
  PostEdit.ids "7" = ["7"].
Proof.
  destruct (ids_of_postId "12,7") as (Hjoin & Hlength & _ & _).
  destruct (ids_of_postId "7") as (_ & _ & _ & Hsingle).
  split; [exact Hjoin|]. split; [exact Hlength|].
  apply Hsingle. reflexivity.
Defined.

Lemma form_fields_of_bulk_edit_witness :
  PostEdit.Form.fields
    (PostEdit.form PostEdit.sample_translate (PostEdit.ids "7,8")) =
    [PostEdit.FormField.Id "title"; PostEdit.FormField.Id "author";
     PostEdit.FormField.Id "date"; PostEdit.FormField.Id "comment_status"] ∧
  length
    (PostEdit.Form.fields
       (PostEdit.form PostEdit.sample_translate (PostEdit.ids "7"))) = 9.
Proof.
  destruct (form_fields_of_bulk_edit PostEdit.sample_translate "7,8")
    as (_ & _ & Hbulk).
  destruct (form_fields_of_bulk_edit PostEdit.sample_translate "7")
    as (_ & Hsingle & _).
  split.
  - apply Hbulk. vm_compute. lia.
  - rewrite Hsingle; reflexivity.
Defined.

Lemma PostEditForm_throws_without_fields_witness :
  PostEdit.sample_PostEditForm "attachment" "7" ∅ =
    Threw (JS.TypeError
             "Cannot read properties of undefined (reading 'map')").
Proof.
  apply (PostEditForm_throws_without_fields PostEdit.sample_translate
           PostEdit.sample_getEditedEntityRecord
           PostEdit.sample_getEntityRecords PostEdit.sample_usePostFields
           PostEdit.sample_isAfterNow "attachment" "7" ∅).
  reflexivity.
Defined.

Lemma PostEditForm_throws_on_status_without_elements_witness :
  PostEdit.sample_PostEditForm "broken" "7" ∅ =
    Threw (JS.TypeError
             "Cannot read properties of undefined (reading 'filter')").
Proof.
  apply (PostEditForm_throws_on_status_without_elements
           PostEdit.sample_translate PostEdit.sample_getEditedEntityRecord
           PostEdit.sample_getEntityRecords PostEdit.sample_usePostFields
           PostEdit.sample_isAfterNow "broken" "7" ∅
           [PostEdit.PostField.mk "status" None
              (PostEdit.sample_Edit "status")]
           (PostEdit.PostField.mk "status" None
              (PostEdit.sample_Edit "status"))).
  - reflexivity.
  - apply list_elem_of_here.
  - reflexivity.
  - reflexivity.
Defined.

Lemma sample_post_fields_have_elements field :
  field ∈ PostEdit.sample_post_fields →
  PostEdit.PostField.id field = "status" →
  is_Some (PostEdit.PostField.elements field).
Proof.
  unfold PostEdit.sample_post_fields. intros Hin Hid.
  repeat (apply elem_of_cons in Hin as [->|Hin]);
    [discriminate Hid | by eexists | discriminate Hid
    | by apply elem_of_nil in Hin].
Defined.

Lemma PostEditForm_fields_witness :
  ∃ view status template,
    PostEdit.sample_PostEditForm "page" "7" ∅ = Returned view ∧
    PostEdit.PostField.id <$> PostEdit.viewFields view
      = ["title"; "status"; "template"] ∧
    PostEdit.viewFields view !! 1 = Some status ∧
    PostEdit.PostField.elements status =
      Some [PostEdit.Element.mk (JS.Str "draft") "Draft";
            PostEdit.Element.mk (JS.Str "publish") "Published"] ∧
    PostEdit.viewFields view !! 2 = Some template ∧
    PostEdit.PostField.Edit template (PostEdit.EditProps.mk ∅ None)
      = DElement "select" "template" "Single,page,blank".
Proof.
  destruct (PostEditForm_fields PostEdit.sample_translate
              PostEdit.sample_getEditedEntityRecord
              PostEdit.sample_getEntityRecords PostEdit.sample_usePostFields
              PostEdit.sample_isAfterNow "page" "7" ∅
              PostEdit.sample_post_fields eq_refl
              sample_post_fields_have_elements)
    as (view & Hview & Hlength & Hfields).
  destruct (Hfields 0 _ eq_refl) as (f0 & H0 & Hid0 & _).
  destruct (Hfields 1 _ eq_refl) as (f1 & H1 & Hid1 & Hstatus & _).
  destruct (Hfields 2 _ eq_refl) as (f2 & H2 & Hid2 & _ & _ & Htemplate & _).
  exists view, f1, f2. split; [exact Hview|]. split.
  - destruct (PostEdit.viewFields view) as [|g0 [|g1 [|g2 [|g3 rest]]]];
      try discriminate Hlength.
    simpl in H0, H1, H2. injection H0 as ->. injection H1 as ->.
    injection H2 as ->. simpl. rewrite Hid0, Hid1, Hid2. reflexivity.
  - split; [exact H1|]. split.
    + destruct Hstatus as [Helements _]; [reflexivity|]. exact Helements.
    + split; [exact H2|]. rewrite Htemplate; reflexivity.
Defined.

Lemma PostEditForm_single_or_bulk_witness :
  (∃ view,
     PostEdit.sample_PostEditForm "page" "7" ∅ = Returned view ∧
     PostEdit.postCardPanel view = Some ("page", "7") ∧
     PostEdit.data view = Obj.Object PostEdit.scheduled_post) ∧
  (∃ view,
     PostEdit.sample_PostEditForm "page" "7,8" PostEdit.publish_edits
       = Returned view ∧
     PostEdit.postCardPanel view = None ∧
     PostEdit.data view = Obj.Object PostEdit.publish_edits).
Proof.
  split.
  - destruct (PostEditForm_single_or_bulk PostEdit.sample_translate
                PostEdit.sample_getEditedEntityRecord
                PostEdit.sample_getEntityRecords
                PostEdit.sample_usePostFields PostEdit.sample_isAfterNow
                "page" "7" ∅ PostEdit.sample_post_fields eq_refl
                sample_post_fields_have_elements)
      as (view & Hview & _ & Hsingle & _).
    exists view. split; [exact Hview|]. apply Hsingle. reflexivity.
  - destruct (PostEditForm_single_or_bulk PostEdit.sample_translate
                PostEdit.sample_getEditedEntityRecord
                PostEdit.sample_getEntityRecords
                PostEdit.sample_usePostFields PostEdit.sample_isAfterNow
                "page" "7,8" PostEdit.publish_edits
                PostEdit.sample_post_fields eq_refl
                sample_post_fields_have_elements)
      as (view & Hview & _ & _ & Hbulk).
    exists view. split; [exact Hview|]. apply Hbulk. vm_compute. lia.
Defined.

Lemma onChange_edits_every_record_witness :
  ∃ s',
    PostEdit.onChange PostEdit.sample_isAfterNow "page" ["7"; "8"]
      (Obj.Prim JS.Null) PostEdit.publish_edits ∅ []
      = (Returned (), s') ∧
    PostEdit.recordId <$> PostEdit.dispatched s' = ["7"; "8"] ∧
    PostEdit.multiEdits s' = PostEdit.edits s' ∪ ∅ ∧
    PostEdit.edits s' !! "title" = Some (JS.Str "New").
Proof.
  destruct (onChange_edits_every_record PostEdit.sample_isAfterNow "page"
              ["7"; "8"] (Obj.Prim JS.Null) PostEdit.publish_edits ∅ [])
    as (s' & Hrun & Hcalls & Hmulti & Hframe).
  - intros Hprivate. vm_compute in Hprivate. discriminate Hprivate.
  - exists s'. split; [exact Hrun|]. split; [|split].
    + rewrite Hcalls. reflexivity.
    + exact Hmulti.
    + rewrite Hframe; [reflexivity|discriminate|discriminate].
Defined.

Lemma onChange_resets_future_date_witness :
  ∃ s',
    PostEdit.onChange PostEdit.sample_isAfterNow "page" ["7"]
      (Obj.Object PostEdit.scheduled_post) PostEdit.publish_edits ∅ []
      = (Returned (), s') ∧
    PostEdit.edits s' !! "date" = Some JS.Null.
Proof.
  destruct (onChange_resets_future_date PostEdit.sample_isAfterNow "page"
              ["7"] (Obj.Object PostEdit.scheduled_post)
              PostEdit.publish_edits ∅ [])
    as (s' & Hrun & Hreset & _).
  - discriminate.
  - intros _. split; discriminate.
  - exists s'. split; [exact Hrun|].
    apply Hreset; [reflexivity | discriminate | reflexivity | reflexivity].
Defined.

Lemma onChange_clears_password_witness :
  ∃ s',
    PostEdit.onChange PostEdit.sample_isAfterNow "page" ["7"]
      (Obj.Object PostEdit.scheduled_post) PostEdit.private_edits ∅ []
      = (Returned (), s') ∧
    PostEdit.edits s' !! "password" = Some (JS.Str "").
Proof.
  destruct (onChange_clears_password PostEdit.sample_isAfterNow "page"
              ["7"] (Obj.Object PostEdit.scheduled_post)
              PostEdit.private_edits ∅ [])
    as (s' & Hrun & Hclear & _).
  - discriminate.
  - intros _. split; discriminate.
  - exists s'. split; [exact Hrun|]. apply Hclear; reflexivity.
Defined.

Lemma bulk_private_edit_throws_witness :
  ∃ view,
    PostEdit.sample_PostEditForm "page" "7,8" ∅ = Returned view ∧
    PostEdit.viewOnChange view PostEdit.private_edits ∅ [] =
      (Threw (JS.TypeError
                "Cannot read properties of null (reading 'password')"),
       {| PostEdit.edits := PostEdit.private_edits;
          PostEdit.multiEdits := ∅; PostEdit.dispatched := [] |}).
Proof.
  eexists. split; [reflexivity|].
  apply (bulk_private_edit_throws PostEdit.sample_translate
           PostEdit.sample_getEditedEntityRecord
           PostEdit.sample_getEntityRecords PostEdit.sample_usePostFields
           PostEdit.sample_isAfterNow "page" "7,8" ∅).
  - vm_compute. lia.
  - reflexivity.
  - reflexivity.
Defined.

Lemma useTemplates_options_witness :
  ∃ titled untitled,
    PostEdit.useTemplates (PostEdit.sample_getEntityRecords "postType"
                             "wp_template") !! 1 = Some titled ∧
    PostEdit.useTemplates (PostEdit.sample_getEntityRecords "postType"
                             "wp_template") !! 2 = Some untitled ∧
    PostEdit.TemplateOption.label titled = JS.Str "page" ∧
    PostEdit.TemplateOption.label untitled = JS.Str "blank".
Proof.
  destruct (useTemplates_options
              (PostEdit.sample_getEntityRecords "postType" "wp_template"))
    as (_ & _ & Hoptions).
  destruct (Hoptions 1 _ eq_refl) as (titled & H1 & _ & _ & Hrendered).
  destruct (Hoptions 2 _ eq_refl) as (untitled & H2 & _ & Hslug & _).
  exists titled, untitled.
  split; [exact H1|]. split; [exact H2|]. split.
  - rewrite (Hrendered (JS.Str "")); reflexivity.
  - rewrite Hslug; reflexivity.
Defined.

Lemma PostEdit_form_or_message_witness :
  PostEdit.pageClassName
    (PostEdit.PostEdit PostEdit.sample_translate
       PostEdit.sample_getEditedEntityRecord PostEdit.sample_getEntityRecords
       PostEdit.sample_usePostFields PostEdit.sample_isAfterNow
       "page" None ∅)
    = "edit-site-post-edit is-empty" ∧
  PostEdit.pageMessage
    (PostEdit.PostEdit PostEdit.sample_translate
       PostEdit.sample_getEditedEntityRecord PostEdit.sample_getEntityRecords
       PostEdit.sample_usePostFields PostEdit.sample_isAfterNow
       "page" (Some "7") ∅)
    = None.
Proof.
  destruct (PostEdit_form_or_message PostEdit.sample_translate
              PostEdit.sample_getEditedEntityRecord
              PostEdit.sample_getEntityRecords PostEdit.sample_usePostFields
              PostEdit.sample_isAfterNow "page" None ∅) as [Hempty _].
  destruct (PostEdit_form_or_message PostEdit.sample_translate
              PostEdit.sample_getEditedEntityRecord
              PostEdit.sample_getEntityRecords PostEdit.sample_usePostFields
              PostEdit.sample_isAfterNow "page" (Some "7") ∅) as [_ Hform].
  split.
  - apply Hempty. left. reflexivity.
  - apply (Hform "7"); [reflexivity|discriminate].
Defined.

Lemma closeOnEscape_closes_once_witness :
  ListViewSidebar.closeOnEscape 27 (Some 1)
    (ListViewSidebar.mkKeyEvent 27 false) =
    [ListViewSidebar.PreventDefault;
     ListViewSidebar.SetIsListViewOpened false; ListViewSidebar.Focus 1] ∧
  ListViewSidebar.closeOnEscape 27 (Some 1)
    (ListViewSidebar.mkKeyEvent 27 true) = [].
Proof.
  destruct (closeOnEscape_closes_once 27 (Some 1)
              (ListViewSidebar.mkKeyEvent 27 false)) as [Hcloses _].
  destruct (closeOnEscape_closes_once 27 (Some 1)
              (ListViewSidebar.mkKeyEvent 27 true)) as [_ Hnothing].
  split.
  - apply Hcloses; reflexivity.
  - apply Hnothing. right. reflexivity.
Defined.

Lemma shortcut_closes_or_focuses_witness :
  ListViewSidebar.handleToggleListViewShortcut
    ListViewSidebar.sample_tabbable ListViewSidebar.sample_contains
    (Some 1) (ListViewSidebar.sample_refs (Some 15)) "list-view"
  = (Returned (),
     [ListViewSidebar.SetIsListViewOpened false; ListViewSidebar.Focus 1]).
Proof.
  destruct (shortcut_closes_or_focuses ListViewSidebar.sample_tabbable
              ListViewSidebar.sample_contains (Some 1)
              (ListViewSidebar.sample_refs (Some 15)) "list-view")
    as [Hinside _].
  apply Hinside. reflexivity.
Defined.

Lemma handleSidebarFocus_target_witness :
  ListViewSidebar.handleSidebarFocus ListViewSidebar.sample_tabbable
    ListViewSidebar.sample_contains (ListViewSidebar.sample_refs (Some 2))
    "list-view"
  = (Returned (), [ListViewSidebar.Focus 15]) ∧
  ListViewSidebar.handleSidebarFocus ListViewSidebar.empty_tabbable
    ListViewSidebar.sample_contains (ListViewSidebar.sample_refs (Some 2))
    "list-view"
  = (Returned (), [ListViewSidebar.Focus 12]).
Proof.
  split.
  - destruct (handleSidebarFocus_target ListViewSidebar.sample_tabbable
                ListViewSidebar.sample_contains
                (ListViewSidebar.sample_refs (Some 2)) "list-view" 12 [13])
      as (_ & _ & Hblock); [reflexivity | reflexivity |].
    apply (Hblock 15 [16]); reflexivity.
  - destruct (handleSidebarFocus_target ListViewSidebar.empty_tabbable
                ListViewSidebar.sample_contains
                (ListViewSidebar.sample_refs (Some 2)) "list-view" 12 [13])
      as (_ & Hempty & _); [reflexivity | reflexivity |].
    apply Hempty; reflexivity.
Defined.

Lemma handleSidebarFocus_throws_without_tabs_witness :
  ListViewSidebar.handleSidebarFocus (λ _, [])
    ListViewSidebar.sample_contains (ListViewSidebar.sample_refs None)
    "outline"
  = (Threw (JS.TypeError
              "Cannot read properties of undefined (reading 'focus')"),
     []).
Proof.
  apply (handleSidebarFocus_throws_without_tabs (λ _, [])
           ListViewSidebar.sample_contains
           (ListViewSidebar.sample_refs None) "outline").
  - reflexivity.
  - discriminate.
Defined.
